(** * brandt-farm: the plot lifecycle and its growth timers

    A shallow embedding of [src/index.js]: the Express handlers of the
    farming game, the growth timers they arm, the node-persist document
    they write, and the start-up code that reloads it.

    Conventions of the embedding.
    - Plot objects are mutated in place through references
      ([const plot = gameBoard[row][col]; plot.state = ...]), so they live
      in a store ([heap]) and the board holds their addresses.  Arrays are
      built once and never written afterwards ([Array.prototype.map]
      always returns a new array); they are lists.
    - A handler or a timer callback runs as one computation of the monad
      [Js]: the world goes in, a completion (a value or a thrown
      [TypeError]) and the world come out.  The suspension points of
      [await] are not modelled.
    - [Date.now()] is an argument of whatever reads the clock.
    - [setTimeout] gives a timer the delay Node gives it: the delay asked
      for between 1 and 2^31 - 1 milliseconds, and 1 millisecond
      otherwise.
    - The [row] and [col] of a request body are integers or missing, the
      body the endpoints document, in the handlers [api_plant],
      [api_water], [api_harvest] and in the events; [request] is a handler
      on a body whose fields are missing, [null], booleans or any number.
      A stored document is an array of rows of plots with a string [state]
      and a number or [null] as [lastWateredTime].
    - A handler that throws has sent no response and leaves the world as
      it was when it threw; what Express and Node do with the rejected
      promise is outside the source and is not modelled.
    - [console.log] is dropped. *)

From Stdlib Require Import QArith.
From stdpp Require Import base list strings numbers pretty.

Open Scope string_scope.
Open Scope list_scope.
Open Scope nat_scope.

(** ** Game configuration *)

Definition ROWS : Z := 4.
Definition COLS : Z := 5.
Definition GROWTH_TIME_MS : Z := 5000.

(** ** Data *)

Definition loc := nat.

(** The value of [plot.growthTimeout]: the [Timeout] object returned by
    [setTimeout] (known by its number), [null], or [undefined].  A property
    that is absent reads as [undefined] and is serialized the same way, so
    both are [TUndefined]. *)
Inductive TimeoutRef :=
  | TUndefined
  | TNull
  | THandle (id : nat).

Record Plot := mkPlot {
  state : string;
  lastWateredTime : option Z;
  growthTimeout : TimeoutRef
}.

(** A plot of a JSON document.  [JSON.stringify] leaves out a property
    whose value is [undefined]; [j_growthTimeout] says whether the key is
    there (it can then only hold [null]). *)
Record PlotJson := mkPlotJson {
  j_state : string;
  j_lastWateredTime : option Z;
  j_growthTimeout : bool
}.

Definition Doc := list (list PlotJson).

(** The two growth callbacks, as closures over their coordinates: the one
    armed by [/api/water] and the one re-established at start-up. *)
Inductive Callback :=
  | WaterGrowth (row col : Z)
  | ReloadGrowth (r c : Z).

Record Timer := mkTimer {
  timer_id : nat;
  timer_delay : Z;
  timer_callback : Callback
}.

Definition callback_coords (cb : Callback) : Z * Z :=
  match cb with
  | WaterGrowth row col => (row, col)
  | ReloadGrowth r c => (r, c)
  end.

Record World := mkWorld {
  heap : list Plot;             (* plot objects, by address *)
  gameBoard : list (list loc);  (* [let gameBoard] *)
  timers : list Timer;          (* pending timeouts, latest first *)
  next_timer : nat;             (* number of the next Timeout object *)
  stored : option Doc;          (* item 'gameBoard' of the storage *)
  saves : nat                   (* calls of storage.setItem so far *)
}.

(** The process when [index.js] starts: [let gameBoard = []], nothing
    scheduled, the storage as the previous run left it. *)
Definition boot (disk : option Doc) : World :=
  mkWorld [] [] [] 0 disk 0.

(** ** Computations *)

Inductive Exn := TypeError.

Inductive Completion (A : Type) :=
  | Normal (a : A) (w : World)
  | Throw (e : Exn) (w : World).
Arguments Normal {A} a w.
Arguments Throw {A} e w.

Definition Js (A : Type) : Type := World → Completion A.

Definition js_ret {A} (a : A) : Js A := λ w, Normal a w.

Definition js_bind {A B} (k : A → Js B) (m : Js A) : Js B :=
  λ w, match m w with
       | Normal a w' => k a w'
       | Throw e w' => Throw e w'
       end.

Definition js_throw {A} (e : Exn) : Js A := λ w, Throw e w.

#[global] Instance Js_ret : MRet Js := @js_ret.
#[global] Instance Js_bind : MBind Js := @js_bind.

Definition world_after {A} (c : Completion A) : World :=
  match c with
  | Normal _ w => w
  | Throw _ w => w
  end.

(** *** The store *)

Definition with_heap (h : list Plot) (w : World) : World :=
  mkWorld h (gameBoard w) (timers w) (next_timer w) (stored w) (saves w).

Definition with_gameBoard (b : list (list loc)) (w : World) : World :=
  mkWorld (heap w) b (timers w) (next_timer w) (stored w) (saves w).

Definition with_timers (ts : list Timer) (n : nat) (w : World) : World :=
  mkWorld (heap w) (gameBoard w) ts n (stored w) (saves w).

Definition with_stored (d : Doc) (w : World) : World :=
  mkWorld (heap w) (gameBoard w) (timers w) (next_timer w) (Some d) (S (saves w)).

(** An object literal or a spread: a new object at a new address. *)
Definition new_object (p : Plot) : Js loc :=
  λ w, Normal (length (heap w)) (with_heap (heap w ++ [p]) w).

(** Reading through a reference.  A reference always points at an object
    in JavaScript; the [TypeError] is for [undefined.state]. *)
Definition deref (l : loc) : Js Plot :=
  λ w, match heap w !! l with
       | Some p => Normal p w
       | None => Throw TypeError w
       end.

Definition assign (l : loc) (f : Plot → Plot) : Js unit :=
  λ w, match heap w !! l with
       | Some p => Normal tt (with_heap (<[l := f p]> (heap w)) w)
       | None => Throw TypeError w
       end.

Definition set_state (l : loc) (s : string) : Js unit :=
  assign l (λ p, mkPlot s (lastWateredTime p) (growthTimeout p)).

Definition set_lastWateredTime (l : loc) (t : option Z) : Js unit :=
  assign l (λ p, mkPlot (state p) t (growthTimeout p)).

Definition set_growthTimeout (l : loc) (t : TimeoutRef) : Js unit :=
  assign l (λ p, mkPlot (state p) (lastWateredTime p) t).

Definition get_gameBoard : Js (list (list loc)) :=
  λ w, Normal (gameBoard w) w.

Definition set_gameBoard (b : list (list loc)) : Js unit :=
  λ w, Normal tt (with_gameBoard b w).

(** [a[i]] for a number [i]: [undefined] outside the array. *)
Definition index {A} (a : list A) (i : Z) : option A :=
  if decide (0 ≤ i)%Z then a !! Z.to_nat i else None.

(** [gameBoard[row][col]], followed by the first property read of the
    plot.  [gameBoard[row]] outside the board is [undefined] and indexing
    it throws; a plot outside the row is [undefined] and reading its
    [state] throws. *)
Definition gameBoard_at (row col : Z) : Js loc :=
  λ w, match index (gameBoard w) row with
       | Some cells =>
           match index cells col with
           | Some l => Normal l w
           | None => Throw TypeError w
           end
       | None => Throw TypeError w
       end.

(** *** Timers *)

(** The longest delay a Node timer takes, in milliseconds: 2^31 - 1. *)
Definition TIMEOUT_MAX : Z := 2147483647.

(** The delay Node gives a timer: the delay asked for when it lies
    between 1 and [TIMEOUT_MAX], and 1 otherwise. *)
Definition timeout_delay (delay : Z) : Z :=
  if (1 <=? delay)%Z && (delay <=? TIMEOUT_MAX)%Z then delay else 1%Z.

Definition setTimeout (cb : Callback) (delay : Z) : Js TimeoutRef :=
  λ w, Normal (THandle (next_timer w))
         (with_timers (mkTimer (next_timer w) (timeout_delay delay) cb :: timers w)
                      (S (next_timer w)) w).

Definition cancel (id : nat) (ts : list Timer) : list Timer :=
  filter (λ t, timer_id t ≠ id) ts.

Definition clearTimeout (t : TimeoutRef) : Js unit :=
  λ w, match t with
       | THandle id => Normal tt (with_timers (cancel id (timers w)) (next_timer w) w)
       | _ => Normal tt w
       end.

(** JavaScript truthiness of the two properties the program tests. *)
Definition truthy_timeout (t : TimeoutRef) : bool :=
  match t with
  | THandle _ => true
  | _ => false
  end.

Definition truthy_time (t : option Z) : bool :=
  match t with
  | Some n => negb (n =? 0)%Z
  | None => false
  end.

(** *** Arrays *)

(** [a.forEach((x, i) => f(x, i))] *)
Fixpoint forEach_from {A} (f : A → nat → Js unit) (i : nat) (a : list A) : Js unit :=
  match a with
  | [] => mret tt
  | x :: a' => f x i ;; forEach_from f (S i) a'
  end.

Definition forEach {A} (f : A → nat → Js unit) (a : list A) : Js unit :=
  forEach_from f 0 a.

(** [a.map(x => f(x))] *)
Fixpoint array_map {A B} (f : A → Js B) (a : list A) : Js (list B) :=
  match a with
  | [] => mret []
  | x :: a' => y ← f x; ys ← array_map f a'; mret (y :: ys)
  end.

(** ** Persistence *)

(** [JSON.stringify] of a plot object.  A [Timeout] object is circular,
    which [JSON.stringify] refuses. *)
Definition stringify_plot (p : Plot) : option PlotJson :=
  match growthTimeout p with
  | TUndefined => Some (mkPlotJson (state p) (lastWateredTime p) false)
  | TNull => Some (mkPlotJson (state p) (lastWateredTime p) true)
  | THandle _ => None
  end.

Definition JSON_stringify (b : list (list loc)) : Js Doc :=
  array_map (array_map (λ l,
    p ← deref l;
    match stringify_plot p with
    | Some j => mret j
    | None => js_throw TypeError
    end)) b.

(** [JSON.parse]: every object of the text is a new object. *)
Definition parse_plot (j : PlotJson) : Plot :=
  mkPlot (j_state j) (j_lastWateredTime j)
         (if j_growthTimeout j then TNull else TUndefined).

Definition JSON_parse (d : Doc) : Js (list (list loc)) :=
  array_map (array_map (λ j, new_object (parse_plot j))) d.

Definition storage_setItem (d : Doc) : Js unit :=
  λ w, Normal tt (with_stored d w).

Definition storage_getItem : Js (option Doc) :=
  λ w, Normal (stored w) w.

(** [{ ...plot }] with [growthTimeout] deleted (in [saveGameBoard]) or
    overridden by [undefined] (in [/api/game-state]). *)
Definition without_timeout (plot : loc) : Js loc :=
  p ← deref plot;
  new_object (mkPlot (state p) (lastWateredTime p) TUndefined).

Definition saveGameBoard : Js unit :=
  b ← get_gameBoard;
  serializableGameBoard ← array_map (array_map without_timeout) b;
  d ← JSON_stringify serializableGameBoard;
  storage_setItem d.

(** ** Start-up *)

(** [a[i] = x] as the two loops of [initializeNewGameBoard] use it: [i]
    is an index of the array or its length (then the array grows by one).
    Sparse writes beyond the length do not occur there. *)
Definition array_set {A} (a : list A) (i : nat) (x : A) : list A :=
  if decide (i < length a) then <[i := x]> a else a ++ [x].

(** [for (let i = 0; i < n; i++) f(i)] *)
Definition for_range (n : Z) (f : nat → Js unit) : Js unit :=
  forEach (λ i _, f i) (seq 0 (Z.to_nat n)).

Definition initializeNewGameBoard : Js unit :=
  set_gameBoard [];;
  for_range ROWS (λ r,
    b ← get_gameBoard;
    set_gameBoard (array_set b r []);;
    for_range COLS (λ c,
      plot ← new_object (mkPlot "empty" None TNull);
      b ← get_gameBoard;
      match b !! r with
      | Some cells => set_gameBoard (<[r := array_set cells c plot]> b)
      | None => js_throw TypeError
      end));;
  saveGameBoard.

(** [ToNumber] of a [lastWateredTime]: [null] counts as 0. *)
Definition to_number (t : option Z) : Z := default 0%Z t.

(** The number in a coordinate that passed the check of the handlers. *)
Definition coordinate (v : option Z) : Z := default 0%Z v.

(** The body of the growth callback re-established at start-up. *)
Definition reload_growth (r c : Z) : Js unit :=
  plot ← gameBoard_at r c;
  p ← deref plot;
  if String.eqb (state p) "watered" then
    plot' ← gameBoard_at r c;
    set_state plot' "ready";;
    saveGameBoard
  else mret tt.

(** The body of the inner [forEach] of the reload, for the plot at
    [(r, c)]; [now] is what [Date.now()] returns there. *)
Definition reload_plot (now : Z) (r c : nat) (plot : loc) : Js unit :=
  p ← deref plot;
  if String.eqb (state p) "watered" && truthy_time (lastWateredTime p) then
    let timeElapsed := (now - to_number (lastWateredTime p))%Z in
    let remainingGrowthTime := (GROWTH_TIME_MS - timeElapsed)%Z in
    if (0 <? remainingGrowthTime)%Z then
      t ← setTimeout (ReloadGrowth (Z.of_nat r) (Z.of_nat c)) remainingGrowthTime;
      set_growthTimeout plot t
    else
      set_state plot "ready"
  else mret tt.

(** [clock r c] is the reading of [Date.now()] when the reload visits the
    plot at [(r, c)]. *)
Definition initStorageAndLoadGameState (clock : nat → nat → Z) : Js unit :=
  storedGameBoard ← storage_getItem;
  match storedGameBoard with
  | Some d =>
      b ← JSON_parse d;
      set_gameBoard b;;
      b ← get_gameBoard;
      forEach (λ row r, forEach (λ plot c, reload_plot (clock r c) r c plot) row) b
  | None => initializeNewGameBoard
  end.

(** ** API endpoints *)

Inductive Body :=
  | Message (success : bool) (message : string)
  | Board (d : Doc).

Record Response := mkResponse {
  status : nat;
  body : Body
}.

(** [res.json(b)] and [res.status(400).json(b)] *)
Definition json (b : Body) : Response := mkResponse 200 b.
Definition json_400 (b : Body) : Response := mkResponse 400 b.

(** The copy made by [/api/game-state]. *)
Definition responseBoard : Js (list (list loc)) :=
  b ← get_gameBoard;
  array_map (array_map without_timeout) b.

Definition api_game_state : Js Response :=
  copy ← responseBoard;
  d ← JSON_stringify copy;
  mret (json (Board d)).

(** The test that opens the three POST handlers, on fields that are
    integers as the endpoints document them; [None] is a property the
    request body does not have.  ([invalid_fields] is the test on the
    other JSON values.) *)
Definition invalid_coordinates (row col : option Z) : bool :=
  match row, col with
  | Some row, Some col =>
      (row <? 0)%Z || (row >=? ROWS)%Z || (col <? 0)%Z || (col >=? COLS)%Z
  | _, _ => true
  end.

Definition invalid_response : Response :=
  json_400 (Message false "Invalid plot coordinates.").

(** What [/api/plant] does once the coordinates passed. *)
Definition plant_plot (row col : Z) : Js Response :=
  plot ← gameBoard_at row col;
  p ← deref plot;
  if String.eqb (state p) "empty" then
    set_state plot "planted";;
    set_lastWateredTime plot None;;
    p ← deref plot;
    (if truthy_timeout (growthTimeout p) then
       clearTimeout (growthTimeout p);;
       set_growthTimeout plot TNull
     else mret tt);;
    saveGameBoard;;
    mret (json (Message true
      ("Seed planted at (" +:+ pretty row +:+ ", " +:+ pretty col +:+ ").")))
  else
    mret (json_400 (Message false "Plot is not empty.")).

Definition api_plant (row col : option Z) : Js Response :=
  if invalid_coordinates row col then mret invalid_response
  else plant_plot (coordinate row) (coordinate col).

(** The body of the growth callback armed by [/api/water]. *)
Definition water_growth (row col : Z) : Js unit :=
  plot ← gameBoard_at row col;
  p ← deref plot;
  if String.eqb (state p) "watered" then
    plot' ← gameBoard_at row col;
    set_state plot' "ready";;
    plot'' ← gameBoard_at row col;
    set_growthTimeout plot'' TNull;;
    saveGameBoard
  else mret tt.

Definition water_plot (now : Z) (row col : Z) : Js Response :=
  plot ← gameBoard_at row col;
  p ← deref plot;
  if String.eqb (state p) "planted" then
    set_state plot "watered";;
    set_lastWateredTime plot (Some now);;
    p ← deref plot;
    (if truthy_timeout (growthTimeout p) then clearTimeout (growthTimeout p)
     else mret tt);;
    t ← setTimeout (WaterGrowth row col) GROWTH_TIME_MS;
    set_growthTimeout plot t;;
    saveGameBoard;;
    mret (json (Message true
      ("Plant at (" +:+ pretty row +:+ ", " +:+ pretty col
       +:+ ") watered. It will be ready in "
       +:+ pretty (GROWTH_TIME_MS / 1000)%Z +:+ " seconds.")))
  else if String.eqb (state p) "watered" || String.eqb (state p) "ready" then
    mret (json_400 (Message false "Plant is already watered or ready."))
  else
    mret (json_400 (Message false "Nothing to water here. Plant a seed first!")).

Definition api_water (now : Z) (row col : option Z) : Js Response :=
  if invalid_coordinates row col then mret invalid_response
  else water_plot now (coordinate row) (coordinate col).

Definition harvest_plot (row col : Z) : Js Response :=
  plot ← gameBoard_at row col;
  p ← deref plot;
  if String.eqb (state p) "ready" then
    set_state plot "empty";;
    set_lastWateredTime plot None;;
    p ← deref plot;
    (if truthy_timeout (growthTimeout p) then
       clearTimeout (growthTimeout p);;
       set_growthTimeout plot TNull
     else mret tt);;
    saveGameBoard;;
    mret (json (Message true
      ("Plant at (" +:+ pretty row +:+ ", " +:+ pretty col +:+ ") harvested.")))
  else if String.eqb (state p) "empty" then
    mret (json_400 (Message false "Nothing to harvest here. Plot is empty!"))
  else
    mret (json_400 (Message false "Plant is not ready to harvest yet.")).

Definition api_harvest (row col : option Z) : Js Response :=
  if invalid_coordinates row col then mret invalid_response
  else harvest_plot (coordinate row) (coordinate col).

(** ** The event loop *)

Definition run_callback (cb : Callback) : Js unit :=
  match cb with
  | WaterGrowth row col => water_growth row col
  | ReloadGrowth r c => reload_growth r c
  end.

(** The timeout numbered [id] comes due: it leaves the pending list and
    its callback runs.  A timeout that is not pending cannot fire. *)
Definition fire (id : nat) : Js unit :=
  λ w, match List.find (λ t, bool_decide (timer_id t = id)) (timers w) with
       | Some t =>
           run_callback (timer_callback t)
             (with_timers (cancel id (timers w)) (next_timer w) w)
       | None => Normal tt w
       end.

Inductive Event :=
  | GetGameState
  | PostPlant (row col : option Z)
  | PostWater (now : Z) (row col : option Z)
  | PostHarvest (row col : option Z)
  | TimerFires (id : nat).

Definition handle (e : Event) : Js (option Response) :=
  match e with
  | GetGameState => r ← api_game_state; mret (Some r)
  | PostPlant row col => r ← api_plant row col; mret (Some r)
  | PostWater now row col => r ← api_water now row col; mret (Some r)
  | PostHarvest row col => r ← api_harvest row col; mret (Some r)
  | TimerFires id => fire id;; mret None
  end.

Definition step (e : Event) (w : World) : World := world_after (handle e w).

Definition run (es : list Event) (w : World) : World := foldl (λ w e, step e w) w es.

(** * Vocabulary of the proofs *)

(** ** Views of a world *)

(** The reference the board holds at [(row, col)], and the plot it
    shows there. *)
Definition cell (w : World) (row col : Z) : option loc :=
  cells ← index (gameBoard w) row;
  index cells col.

Definition plot_at (w : World) (row col : Z) : option Plot :=
  l ← cell w row col;
  heap w !! l.

(** The pending timeout numbered [id], the one [fire] runs. *)
Definition pending (w : World) (id : nat) : option Timer :=
  List.find (λ t, bool_decide (timer_id t = id)) (timers w).

(** [l] points at an object of the store that satisfies [P]. *)
Definition points_to (P : Plot → Prop) (h : list Plot) (l : loc) : Prop :=
  from_option P False (h !! l).

(** Every cell of the board points at an object that satisfies [P]. *)
Definition board_all (P : Plot → Prop) (w : World) : Prop :=
  Forall (Forall (points_to P (heap w))) (gameBoard w).

(** Every cell holds a plot object: what an array of arrays of objects
    is. *)
Definition board_closed (w : World) : Prop := board_all (λ _, True) w.

(** The board has the configured size. *)
Definition board_sized (w : World) : Prop :=
  length (gameBoard w) = Z.to_nat ROWS ∧
  Forall (λ cells, length cells = Z.to_nat COLS) (gameBoard w).

(** No two cells of the board share a plot object. *)
Definition board_unshared (w : World) : Prop := NoDup (concat (gameBoard w)).

(** ** Copies and documents *)

#[global] Instance Plot_inhabited : Inhabited Plot :=
  populate (mkPlot "" None TUndefined).

(** The copy of a plot without its [growthTimeout], as an object and as
    JSON. *)
Definition strip (p : Plot) : Plot :=
  mkPlot (state p) (lastWateredTime p) TUndefined.

Definition plot_json (p : Plot) : PlotJson :=
  mkPlotJson (state p) (lastWateredTime p) false.

(** What [saveGameBoard] writes, and the copies it leaves behind. *)
Definition doc_of (w : World) : Doc :=
  map (map (λ l, plot_json (heap w !!! l))) (gameBoard w).

Definition copies_of (w : World) : list Plot :=
  map (λ l, strip (heap w !!! l)) (concat (gameBoard w)).

Definition saved (w : World) : World :=
  with_stored (doc_of w) (with_heap (heap w ++ copies_of w) w).

(** The addresses [n], [n+1], ... laid out in the shape of [xss]. *)
Fixpoint fresh_board {A} (n : nat) (xss : list (list A)) : list (list loc) :=
  match xss with
  | [] => []
  | xs :: xss' => seq n (length xs) :: fresh_board (n + length xs) xss'
  end.

(** [f x] allocates one object, [g x], whatever was allocated since the
    store was [h0]. *)
Definition allocates {A} (h0 : list Plot) (f : A → Js loc) (g : A → Plot) (x : A) : Prop :=
  ∀ w, h0 `prefix_of` heap w →
       f x w = Normal (length (heap w)) (with_heap (heap w ++ [g x]) w).

(** [JSON.stringify] turns the object at [l] into [j]. *)
Definition serializes (w : World) (l : loc) (j : PlotJson) : Prop :=
  ∃ p, heap w !! l = Some p ∧ stringify_plot p = Some j.

(** ** Effects of the handlers *)

(** [if (plot.growthTimeout) { clearTimeout(...); plot.growthTimeout = null }]:
    what the property holds afterwards, and what is still pending. *)
Definition cleared (t : TimeoutRef) : TimeoutRef :=
  if truthy_timeout t then TNull else t.

Definition cancel_ref (t : TimeoutRef) (ts : list Timer) : list Timer :=
  match t with
  | THandle id => cancel id ts
  | _ => ts
  end.

(** The world after an accepted action: the plot object at [l] is now
    [p'], the pending timeouts are [ts], and the board has been saved. *)
Definition commit (w : World) (l : loc) (p' : Plot) (ts : list Timer) (n : nat) : World :=
  saved (mkWorld (<[l := p']> (heap w)) (gameBoard w) ts n (stored w) (saves w)).

(** The message of an accepted water call. *)
Definition water_message (row col : Z) : string :=
  "Plant at (" +:+ pretty row +:+ ", " +:+ pretty col
  +:+ ") watered. It will be ready in "
  +:+ pretty (GROWTH_TIME_MS / 1000)%Z +:+ " seconds.".

(** The five ways an event changes a plot: the plot before and after, the
    pending timeouts after, and the number of the next [Timeout]. *)
Inductive lifecycle (w : World) :
    Event → Z → Z → Plot → Plot → list Timer → nat → Prop :=
  | life_plant row col p :
      state p = "empty" →
      lifecycle w (PostPlant (Some row) (Some col)) row col p
        (mkPlot "planted" None (cleared (growthTimeout p)))
        (cancel_ref (growthTimeout p) (timers w)) (next_timer w)
  | life_water now row col p :
      state p = "planted" →
      lifecycle w (PostWater now (Some row) (Some col)) row col p
        (mkPlot "watered" (Some now) (THandle (next_timer w)))
        (mkTimer (next_timer w) GROWTH_TIME_MS (WaterGrowth row col)
           :: cancel_ref (growthTimeout p) (timers w))
        (S (next_timer w))
  | life_harvest row col p :
      state p = "ready" →
      lifecycle w (PostHarvest (Some row) (Some col)) row col p
        (mkPlot "empty" None (cleared (growthTimeout p)))
        (cancel_ref (growthTimeout p) (timers w)) (next_timer w)
  | life_water_growth t row col p :
      pending w (timer_id t) = Some t →
      timer_callback t = WaterGrowth row col →
      state p = "watered" →
      lifecycle w (TimerFires (timer_id t)) row col p
        (mkPlot "ready" (lastWateredTime p) TNull)
        (cancel (timer_id t) (timers w)) (next_timer w)
  | life_reload_growth t r c p :
      pending w (timer_id t) = Some t →
      timer_callback t = ReloadGrowth r c →
      state p = "watered" →
      lifecycle w (TimerFires (timer_id t)) r c p
        (mkPlot "ready" (lastWateredTime p) (growthTimeout p))
        (cancel (timer_id t) (timers w)) (next_timer w).

(** The worlds an event can lead to: no plot changes (copies may have
    been allocated and timeouts may have left the pending list), or one
    plot takes a step of its lifecycle and the board is saved. *)
Inductive outcome (e : Event) (w : World) : World → Prop :=
  | outcome_idle g ts :
      ts ⊆ timers w →
      outcome e w
        (mkWorld (heap w ++ g) (gameBoard w) ts (next_timer w) (stored w) (saves w))
  | outcome_commit row col l p p' ts n :
      cell w row col = Some l → heap w !! l = Some p →
      lifecycle w e row col p p' ts n →
      outcome e w (commit w l p' ts n).

(** ** The lifecycle and its rejections *)

(** The four states of a plot. *)
Definition lifecycle_state (s : string) : Prop :=
  s = "empty" ∨ s = "planted" ∨ s = "watered" ∨ s = "ready".

(** The edges of the lifecycle, each with the event that takes it. *)
Inductive edge : Event → string → string → Prop :=
  | edge_plant row col : edge (PostPlant row col) "empty" "planted"
  | edge_water now row col : edge (PostWater now row col) "planted" "watered"
  | edge_growth id : edge (TimerFires id) "watered" "ready"
  | edge_harvest row col : edge (PostHarvest row col) "ready" "empty".

(** A board of the configured size whose plots are in those states. *)
Definition lifecycle_board (w : World) : Prop :=
  board_sized w ∧ board_all (λ p, lifecycle_state (state p)) w.

(** The three POST endpoints, their handlers, and what a handler does
    once the coordinates passed. *)
Inductive Action := Plant | Water | Harvest.

Definition api (a : Action) (now : Z) : option Z → option Z → Js Response :=
  match a with
  | Plant => api_plant
  | Water => api_water now
  | Harvest => api_harvest
  end.

Definition dispatch (a : Action) (now : Z) : Z → Z → Js Response :=
  match a with
  | Plant => plant_plot
  | Water => water_plot now
  | Harvest => harvest_plot
  end.

(** The response the handler has sent when it returns; a handler that
    throws has sent none (what becomes of the rejected promise of an
    async handler is up to Express and Node). *)
Definition response {A} (c : Completion A) : option A :=
  match c with
  | Normal a _ => Some a
  | Throw _ _ => None
  end.

(** The request has no [row] or no [col], or one of them is outside the
    grid: the condition of the specification, on integers. *)
Definition missing_or_outside (row col : option Z) : Prop :=
  match row, col with
  | Some r, Some c => ¬ ((0 ≤ r < ROWS)%Z ∧ (0 ≤ c < COLS)%Z)
  | _, _ => True
  end.

(** The rejection table of the specification (section 4.1): the reason an
    action is refused in a state, [None] where the action is legal.  Each
    reason is given in the program's wording. *)
Inductive Reason :=
  | PlotNotEmpty
  | AlreadyWateredOrReady
  | NothingToWater
  | NothingToHarvest
  | NotReadyYet.

Definition spec_rejection (a : Action) (s : string) : option Reason :=
  match a with
  | Plant =>
      if decide (s = "planted" ∨ s = "watered" ∨ s = "ready")
      then Some PlotNotEmpty else None
  | Water =>
      if decide (s = "watered" ∨ s = "ready") then Some AlreadyWateredOrReady
      else if decide (s = "empty") then Some NothingToWater
      else None
  | Harvest =>
      if decide (s = "empty") then Some NothingToHarvest
      else if decide (s = "planted" ∨ s = "watered") then Some NotReadyYet
      else None
  end.

Definition reason_message (r : Reason) : string :=
  match r with
  | PlotNotEmpty => "Plot is not empty."
  | AlreadyWateredOrReady => "Plant is already watered or ready."
  | NothingToWater => "Nothing to water here. Plant a seed first!"
  | NothingToHarvest => "Nothing to harvest here. Plot is empty!"
  | NotReadyYet => "Plant is not ready to harvest yet."
  end.

(** [needle] occurs in [s]. *)
Definition includes (needle s : string) : Prop :=
  ∃ pre post, s = pre +:+ needle +:+ post.

(** ** Request bodies of any JSON type *)

(** A value of a field of [req.body] as [express.json()] delivers it:
    [null], a boolean, or a number given by its value (every finite
    double is a rational).  Strings, arrays and objects are left out:
    what the handlers do with them goes through the conversion of strings
    to numbers and the properties of [Array.prototype]. *)
Inductive Json :=
  | JNull
  | JBool (b : bool)
  | JNumber (q : Q).

(** A field of the body; [None] is a key the body does not have, which
    reads as [undefined]. *)
Definition Field := option Json.

(** The number [z], as the endpoints document their fields. *)
Definition JInt (z : Z) : Json := JNumber (inject_Z z).

(** [ToNumber], which [<] and [>=] apply to their operands. *)
Definition ToNumber (v : Json) : Q :=
  match v with
  | JNull => 0%Q
  | JBool b => if b then 1%Q else 0%Q
  | JNumber q => q
  end.

(** [x < y] on numbers. *)
Definition Qltb (x y : Q) : bool := negb (Qle_bool y x).

(** The test that opens the three POST handlers, on any field. *)
Definition invalid_fields (row col : Field) : bool :=
  match row, col with
  | Some row, Some col =>
      Qltb (ToNumber row) 0 || Qle_bool (inject_Z ROWS) (ToNumber row)
      || Qltb (ToNumber col) 0 || Qle_bool (inject_Z COLS) (ToNumber col)
  | _, _ => true
  end.

(** The array index that a value used as a property key names: a number
    that is an integer names the index of that integer.  The keys "null",
    "true", "false" and the key of any other number name no property of
    an array. *)
Definition array_index (v : Json) : option Z :=
  match v with
  | JNumber q =>
      if (Qnum q mod Z.pos (Qden q) =? 0)%Z then Some (Qnum q / Z.pos (Qden q))%Z
      else None
  | _ => None
  end.

(** A POST handler on any body.  Where [row] or [col] names no index,
    [gameBoard[row]] or [gameBoard[row][col]] is [undefined], and indexing
    it, or reading its [state], throws. *)
Definition request (a : Action) (now : Z) (row col : Field) : Js Response :=
  if invalid_fields row col then mret invalid_response
  else match row ≫= array_index, col ≫= array_index with
       | Some r, Some c => dispatch a now r c
       | _, _ => js_throw TypeError
       end.

(** The condition of the specification on any field: [row] or [col] is
    missing, or its number is outside the grid. *)
Definition field_outside (row col : Field) : Prop :=
  match row, col with
  | Some r, Some c =>
      ¬ ((0 <= ToNumber r)%Q ∧ (ToNumber r < inject_Z ROWS)%Q ∧
         (0 <= ToNumber c)%Q ∧ (ToNumber c < inject_Z COLS)%Q)
  | _, _ => True
  end.

(** ** Plot invariants *)

(** The invariant as the specification has it: a timer handle exactly
    while the plot is watered, a watering time exactly while it is
    watered. *)
Definition spec_plot_invariant (p : Plot) : Prop :=
  (truthy_timeout (growthTimeout p) = true ↔ state p = "watered") ∧
  (lastWateredTime p ≠ None ↔ state p = "watered").

(** The invariant the handlers and the callbacks keep: growth completion
    keeps the watering time, which only planting and harvesting clear. *)
Definition plot_invariant (p : Plot) : Prop :=
  lifecycle_state (state p) ∧
  (lastWateredTime p ≠ None ↔ state p = "watered" ∨ state p = "ready") ∧
  (state p = "watered" → truthy_timeout (growthTimeout p) = true) ∧
  (state p = "empty" ∨ state p = "planted" →
   truthy_timeout (growthTimeout p) = false).

(** The plot at [(row, col)] is watered and no pending timeout would
    complete its growth. *)
Definition stuck (row col : Z) (w : World) : Prop :=
  board_closed w ∧ board_unshared w ∧
  (∃ p, plot_at w row col = Some p ∧ state p = "watered") ∧
  Forall (λ t, callback_coords (timer_callback t) ≠ (row, col)) (timers w).

(** ** The reload, cell by cell *)

(** The world after [reload_plot] visited the cell [(r, c)], which holds
    the reference [l] to the plot [p]. *)
Definition reloaded (now : Z) (r c : nat) (l : loc) (p : Plot) (w : World) : World :=
  if String.eqb (state p) "watered" && truthy_time (lastWateredTime p) then
    let remaining := (GROWTH_TIME_MS - (now - to_number (lastWateredTime p)))%Z in
    if (0 <? remaining)%Z then
      mkWorld (<[l := mkPlot (state p) (lastWateredTime p) (THandle (next_timer w))]> (heap w))
              (gameBoard w)
              (mkTimer (next_timer w) (timeout_delay remaining)
                       (ReloadGrowth (Z.of_nat r) (Z.of_nat c))
                 :: timers w)
              (S (next_timer w)) (stored w) (saves w)
    else
      with_heap (<[l := mkPlot "ready" (lastWateredTime p) (growthTimeout p)]> (heap w)) w
  else w.

(** The world right after [gameBoard = storedGameBoard]. *)
Definition loaded (d : Doc) : World :=
  mkWorld (map parse_plot (concat d)) (fresh_board 0 d) [] 0 (Some d) 0.

(** The timeout [t] completes the growth of the cell [(r0, c0)]. *)
Definition growth_here (r0 c0 : nat) (t : Timer) : Prop :=
  callback_coords (timer_callback t) = (Z.of_nat r0, Z.of_nat c0).

(** The pending timeouts were numbered before [next_timer]. *)
Definition timers_numbered (w : World) : Prop :=
  Forall (λ t, timer_id t < next_timer w) (timers w).

(** What holds all along the reload of the board [b]. *)
Definition reloading (b : list (list loc)) (w : World) : Prop :=
  gameBoard w = b ∧ board_closed w ∧ timers_numbered w.

(** No timer for the cell [(r0, c0)] of the board [b], which holds the
    reference [l0]; its plot is [p]. *)
Definition waiting (b : list (list loc)) (r0 c0 : nat) (l0 : loc)
    (p : Plot) (w : World) : Prop :=
  reloading b w ∧ heap w !! l0 = Some p ∧
  Forall (λ t, ¬ growth_here r0 c0 t) (timers w).

(** One timer for the cell, of delay [delay], whose handle the plot
    [p] has received. *)
Definition armed (b : list (list loc)) (r0 c0 : nat) (l0 : loc)
    (p : Plot) (delay : Z) (w : World) : Prop :=
  reloading b w ∧
  ∃ id, let t := mkTimer id delay (ReloadGrowth (Z.of_nat r0) (Z.of_nat c0)) in
        heap w !! l0 = Some (mkPlot (state p) (lastWateredTime p) (THandle id)) ∧
        pending w id = Some t ∧
        Forall (λ t', growth_here r0 c0 t' → t' = t) (timers w).

(** What the reload leaves at the cell when its plot was [p] and the
    clock read [now]. *)
Definition reload_goal (b : list (list loc)) (r0 c0 : nat) (l0 : loc)
    (now : Z) (p : Plot) (w : World) : Prop :=
  if String.eqb (state p) "watered" && truthy_time (lastWateredTime p) then
    let remaining := (GROWTH_TIME_MS - (now - to_number (lastWateredTime p)))%Z in
    if (0 <? remaining)%Z then armed b r0 c0 l0 p (timeout_delay remaining) w
    else waiting b r0 c0 l0 (mkPlot "ready" (lastWateredTime p) (growthTimeout p)) w
  else waiting b r0 c0 l0 p w.

(** [Q] survives the reload of any other cell. *)
Definition kept (b : list (list loc)) (r0 c0 : nat) (l0 : loc)
    (Q : World → Prop) : Prop :=
  (∀ w, Q w → reloading b w) ∧
  ∀ now r c l p w,
    l ≠ l0 → (r, c) ≠ (r0, c0) → heap w !! l = Some p →
    Q w → Q (reloaded now r c l p w).

(** ** Decision procedures *)

#[global] Instance points_to_dec P `{∀ p, Decision (P p)} h l :
  Decision (points_to P h l).
Proof. unfold points_to. destruct (h !! l); simpl; apply _. Defined.

#[global] Instance board_all_dec P `{∀ p, Decision (P p)} w :
  Decision (board_all P w).
Proof. unfold board_all. apply _. Defined.

#[global] Instance lifecycle_state_dec s : Decision (lifecycle_state s).
Proof. unfold lifecycle_state. apply _. Defined.

#[global] Instance board_sized_dec w : Decision (board_sized w).
Proof. unfold board_sized. apply _. Defined.

#[global] Instance lifecycle_board_dec w : Decision (lifecycle_board w).
Proof. unfold lifecycle_board. apply _. Defined.

#[global] Instance spec_plot_invariant_dec p : Decision (spec_plot_invariant p).
Proof. unfold spec_plot_invariant. apply _. Defined.

#[global] Instance plot_invariant_dec p : Decision (plot_invariant p).
Proof. unfold plot_invariant. apply _. Defined.

#[global] Instance TimeoutRef_eq_dec : EqDecision TimeoutRef.
Proof. solve_decision. Defined.

#[global] Instance Plot_eq_dec : EqDecision Plot.
Proof. solve_decision. Defined.

#[global] Instance board_unshared_dec w : Decision (board_unshared w).
Proof. unfold board_unshared. apply _. Defined.

(** ** Sample worlds *)

(** A first run, with no document in the storage. *)
Definition fresh_farm : World :=
  world_after (initStorageAndLoadGameState (λ _ _, 0%Z) (boot None)).

(** The plot at (0, 0) planted, then watered at time 1000. *)
Definition watered_farm : World :=
  run [PostPlant (Some 0%Z) (Some 0%Z); PostWater 1000 (Some 0%Z) (Some 0%Z)] fresh_farm.

(** A stored row of three watered plots: watered at 1000, at 4000, and
    without a watering time. *)
Definition sample_doc : Doc :=
  [[mkPlotJson "watered" (Some 1000%Z) false;
    mkPlotJson "watered" (Some 4000%Z) false;
    mkPlotJson "watered" None false]].

(** ** Vocabulary of the further properties *)

(** The cell an event is about: the coordinates of a request that passes
    the check, the cell of the callback of a pending timeout. *)
Definition event_cell (e : Event) (w : World) : option (Z * Z) :=
  match e with
  | GetGameState => None
  | PostPlant row col | PostWater _ row col | PostHarvest row col =>
      if invalid_coordinates row col then None
      else Some (coordinate row, coordinate col)
  | TimerFires id => (λ t, callback_coords (timer_callback t)) <$> pending w id
  end.

(** What an event does, exactly: nothing but allocate copies; drop a
    pending timeout whose plot is not watered; or take one step of the
    lifecycle at the cell of the event and save the board. *)
Inductive effect (e : Event) (w : World) : World → Prop :=
  | effect_none g :
      effect e w (with_heap (heap w ++ g) w)
  | effect_stale t :
      e = TimerFires (timer_id t) →
      pending w (timer_id t) = Some t →
      (∀ row col p,
         callback_coords (timer_callback t) = (row, col) →
         plot_at w row col = Some p → state p ≠ "watered") →
      effect e w (with_timers (cancel (timer_id t) (timers w)) (next_timer w) w)
  | effect_commit row col l p p' ts n :
      event_cell e w = Some (row, col) →
      cell w row col = Some l → heap w !! l = Some p →
      lifecycle w e row col p p' ts n →
      effect e w (commit w l p' ts n).

(** The storage holds the board as it is now. *)
Definition storage_current (w : World) : Prop :=
  board_closed w ∧ stored w = Some (doc_of w).

(** The cell whose growth the timeout [t] completes. *)
Definition timer_cell (t : Timer) : Z * Z := callback_coords (timer_callback t).

(** The cell of the pending timeout [t] shows a watered plot that holds
    the handle of [t]. *)
Definition timer_owned (w : World) (t : Timer) : Prop :=
  ∃ p, plot_at w (timer_cell t).1 (timer_cell t).2 = Some p ∧
       state p = "watered" ∧ growthTimeout p = THandle (timer_id t).

(** A handle on a plot was handed out by [setTimeout], and its timeout is
    no longer pending unless the plot is watered. *)
Definition handles_known (w : World) : Prop :=
  ∀ row col p id,
    plot_at w row col = Some p → growthTimeout p = THandle id →
    id < next_timer w ∧
    (state p ≠ "watered" → Forall (λ t, timer_id t ≠ id) (timers w)).

(** Every watered plot holds the handle of a pending timeout for its
    cell. *)
Definition watered_armed (w : World) : Prop :=
  ∀ row col p,
    plot_at w row col = Some p → state p = "watered" →
    ∃ t, t ∈ timers w ∧ timer_cell t = (row, col) ∧
         growthTimeout p = THandle (timer_id t).

(** What every event keeps of the pending timeouts and the handles on
    the plots. *)
Definition timers_consistent (w : World) : Prop :=
  board_closed w ∧ board_unshared w ∧
  timers_numbered w ∧ NoDup (timer_id <$> timers w) ∧
  Forall (timer_owned w) (timers w) ∧
  handles_known w ∧ watered_armed w.

(** A board at rest: no pending timeout, no watered plot, no handle on
    any plot. *)
Definition quiet (w : World) : Prop :=
  board_closed w ∧ board_unshared w ∧ timers w = [] ∧
  board_all (λ p, state p ≠ "watered" ∧ truthy_timeout (growthTimeout p) = false) w.

#[global] Instance quiet_dec w : Decision (quiet w).
Proof. unfold quiet, board_closed. apply _. Defined.

(** The timeout [t] was armed by the reload for a cell of the board [b]. *)
Definition reload_timer (b : list (list loc)) (t : Timer) : Prop :=
  ∃ r c cells l,
    timer_callback t = ReloadGrowth (Z.of_nat r) (Z.of_nat c) ∧
    b !! r = Some cells ∧ cells !! c = Some l.

(** What the reload keeps of the world it starts from: the board, the
    storage untouched, and pending timeouts of its own making, each under
    its own number. *)
Definition reading (b : list (list loc)) (d : Doc) (w : World) : Prop :=
  gameBoard w = b ∧ board_closed w ∧ stored w = Some d ∧ saves w = 0 ∧
  timers_numbered w ∧ NoDup (timer_id <$> timers w) ∧
  Forall (reload_timer b) (timers w).

(** Every plot stored as watered has a watering time the reload accepts. *)
Definition well_timed (d : Doc) : Prop :=
  Forall (Forall (λ j, j_state j = "watered" →
                       truthy_time (j_lastWateredTime j) = true)) d.

#[global] Instance well_timed_dec d : Decision (well_timed d).
Proof. unfold well_timed. apply _. Defined.

(** What the reload leaves at a cell: a watered plot with the one timer of
    the cell, or a plot without a handle and no timer for the cell. *)
Definition reload_cell (w : World) (row col : Z) (p : Plot) : Prop :=
  (∃ t, state p = "watered" ∧ growthTimeout p = THandle (timer_id t) ∧
        pending w (timer_id t) = Some t ∧ timer_cell t = (row, col) ∧
        Forall (λ t', timer_cell t' = (row, col) → t' = t) (timers w))
  ∨ (truthy_timeout (growthTimeout p) = false ∧ state p ≠ "watered" ∧
     Forall (λ t, timer_cell t ≠ (row, col)) (timers w)).

(** Pending timeouts and watered plots are matched one to one: the
    timeouts have distinct numbers, each one's cell shows a watered plot
    holding its handle, no two are for the same cell, and every watered
    plot holds the handle of a pending timeout for its cell. *)
Definition timers_match_plots (w : World) : Prop :=
  NoDup (timer_id <$> timers w) ∧
  (∀ t, t ∈ timers w → timer_owned w t) ∧
  (∀ t1 t2, t1 ∈ timers w → t2 ∈ timers w → timer_cell t1 = timer_cell t2 → t1 = t2) ∧
  watered_armed w.

(** A process started on [sample_doc] when the clock reads 7000: a board
    of one row of three plots. *)
Definition reloaded_farm : World :=
  world_after (initStorageAndLoadGameState (λ _ _, 7000%Z) (boot (Some sample_doc))).

(** * Lemmas *)


Lemma timeout_delay_positive delay :
  (0 < delay)%Z →
  timeout_delay delay = if (delay <=? TIMEOUT_MAX)%Z then delay else 1%Z.
Proof.
  intros Hlo. unfold timeout_delay. by destruct (1 <=? delay)%Z eqn:H1; [|lia].
Qed.

Lemma timeout_delay_beyond delay :
  (TIMEOUT_MAX < delay)%Z → timeout_delay delay = 1%Z.
Proof.
  intros Hhi. unfold timeout_delay.
  destruct (delay <=? TIMEOUT_MAX)%Z eqn:H2; [lia|]. by rewrite andb_false_r.
Qed.

(** ** Running computations *)

Lemma bind_normal {A B} (m : Js A) (k : A → Js B) w a w' :
  m w = Normal a w' → (m ≫= k) w = k a w'.
Proof. intros H. unfold mbind, Js_bind, js_bind. by rewrite H. Qed.

Lemma bind_throw {A B} (m : Js A) (k : A → Js B) w e w' :
  m w = Throw e w' → (m ≫= k) w = Throw e w'.
Proof. intros H. unfold mbind, Js_bind, js_bind. by rewrite H. Qed.

Lemma with_heap_heap w : with_heap (heap w) w = w.
Proof. by destruct w. Qed.

Lemma points_to_alt P h l : points_to P h l ↔ ∃ p, h !! l = Some p ∧ P p.
Proof.
  unfold points_to. destruct (h !! l) as [p|]; simpl.
  - split; [eauto | by intros (? & [= <-] & ?)].
  - split; [done | by intros (? & ? & ?)].
Qed.

Lemma index_Some {A} (a : list A) i x :
  index a i = Some x ↔ (0 ≤ i)%Z ∧ a !! Z.to_nat i = Some x.
Proof. unfold index. case_decide; [tauto | split; [done | tauto]]. Qed.

Lemma index_of_nat {A} (a : list A) (i : nat) : index a (Z.of_nat i) = a !! i.
Proof. unfold index. case_decide; [by rewrite Nat2Z.id | lia]. Qed.

(** *** Allocation in a loop *)

Lemma array_map_alloc {A} h0 (f : A → Js loc) g xs w :
  Forall (allocates h0 f g) xs → h0 `prefix_of` heap w →
  array_map f xs w =
    Normal (seq (length (heap w)) (length xs)) (with_heap (heap w ++ map g xs) w).
Proof.
  intros Hxs. revert w. induction Hxs as [|x xs Hx _ IH]; intros w Hpre; simpl.
  - by rewrite app_nil_r, with_heap_heap.
  - rewrite (bind_normal _ _ _ _ _ (Hx w Hpre)).
    rewrite (bind_normal _ _ _ _ _
               (IH (with_heap (heap w ++ [g x]) w) (prefix_app_r _ _ _ Hpre))).
    simpl. rewrite length_app. simpl. rewrite Nat.add_1_r.
    unfold mret, Js_ret, js_ret, with_heap. simpl. by rewrite <- app_assoc.
Qed.

Lemma array_map_alloc_rows {A} h0 (f : A → Js loc) g xss w :
  Forall (Forall (allocates h0 f g)) xss → h0 `prefix_of` heap w →
  array_map (array_map f) xss w =
    Normal (fresh_board (length (heap w)) xss)
           (with_heap (heap w ++ map g (concat xss)) w).
Proof.
  intros Hxss. revert w. induction Hxss as [|xs xss Hxs _ IH]; intros w Hpre; simpl.
  - by rewrite app_nil_r, with_heap_heap.
  - rewrite (bind_normal _ _ _ _ _ (array_map_alloc _ _ _ _ _ Hxs Hpre)).
    rewrite (bind_normal _ _ _ _ _
               (IH (with_heap (heap w ++ map g xs) w) (prefix_app_r _ _ _ Hpre))).
    simpl. rewrite length_app, length_map, map_app.
    unfold mret, Js_ret, js_ret, with_heap. simpl. by rewrite <- app_assoc.
Qed.

(** The objects allocated that way are where [fresh_board] says. *)
Lemma fresh_row_lookup {A} (g : A → Plot) (h : list Plot) xs rest i x :
  xs !! i = Some x → (h ++ map g xs ++ rest)%list !! (length h + i) = Some (g x).
Proof.
  intros Hx. rewrite lookup_app_r by lia.
  replace (length h + i - length h) with i by lia.
  rewrite lookup_app_l by (rewrite length_map; by eapply lookup_lt_Some).
  by rewrite list_lookup_fmap, Hx.
Qed.

Lemma fresh_board_lookup {A} (g : A → Plot) (h : list Plot) (xss : list (list A))
    rest r c cells l :
  fresh_board (length h) xss !! r = Some cells → cells !! c = Some l →
  ∃ xs x, xss !! r = Some xs ∧ xs !! c = Some x ∧
          (h ++ map g (concat xss) ++ rest)%list !! l = Some (g x).
Proof.
  revert h rest r. induction xss as [|xs xss IH]; intros h rest r; simpl; [done|].
  destruct r as [|r]; simpl.
  - intros [= <-] Hl. apply lookup_seq in Hl as [-> Hc].
    apply lookup_lt_is_Some_2 in Hc as [x Hx]. exists xs, x. split_and!; [done..|].
    rewrite map_app, <- app_assoc. by apply fresh_row_lookup.
  - intros Hcells Hl.
    specialize (IH (h ++ map g xs) rest r).
    rewrite length_app, length_map in IH.
    destruct (IH Hcells Hl) as (ys & y & ? & ? & Hy).
    exists ys, y. split_and!; [done..|].
    by rewrite map_app, <- !app_assoc in *.
Qed.

Lemma fresh_board_ge {A} (n : nat) (xss : list (list A)) :
  Forall (Forall (λ l : loc, n ≤ l)) (fresh_board n xss).
Proof.
  revert n. induction xss as [|xs xss IH]; intros n; simpl; constructor.
  - apply Forall_forall. intros l Hl%list_elem_of_In%in_seq. lia.
  - eapply Forall_impl; [apply IH|]. intros cells Hc.
    eapply Forall_impl; [apply Hc|]. simpl. intros. lia.
Qed.

Lemma fresh_board_concat {A} n (xss : list (list A)) :
  concat (fresh_board n xss) = seq n (length (concat xss)).
Proof.
  revert n. induction xss as [|xs xss IH]; intros n; simpl; [done|].
  by rewrite IH, length_app, seq_app.
Qed.

Lemma fresh_board_shape {A} n (xss : list (list A)) :
  Forall2 (λ cells xs, length cells = length xs) (fresh_board n xss) xss.
Proof.
  revert n. induction xss as [|xs xss IH]; intros n; simpl; constructor; [|done].
  by rewrite length_seq.
Qed.

(** *** Serialization *)

Lemma stringify_plot_strip p : stringify_plot (strip p) = Some (plot_json p).
Proof. done. Qed.

Lemma JSON_stringify_normal w b d :
  Forall2 (Forall2 (serializes w)) b d → JSON_stringify b w = Normal d w.
Proof.
  unfold JSON_stringify. induction 1 as [|ls js b d Hrow _ IH]; simpl; [done|].
  erewrite bind_normal; [erewrite bind_normal; [done | exact IH]|].
  clear IH. induction Hrow as [|l j ls js (p & Hl & Hj) _ IH]; simpl; [done|].
  erewrite bind_normal; [erewrite bind_normal; [done | exact IH]|].
  erewrite bind_normal; [|unfold deref; by rewrite Hl].
  by rewrite Hj.
Qed.

Lemma without_timeout_allocates h0 l p :
  h0 !! l = Some p → allocates h0 without_timeout (λ l, strip (h0 !!! l)) l.
Proof.
  intros Hl w [k Hk]. unfold without_timeout.
  erewrite bind_normal; [|unfold deref; rewrite Hk; by erewrite lookup_app_l_Some].
  by rewrite (list_lookup_total_correct _ _ _ Hl).
Qed.

Lemma copy_board w :
  board_closed w →
  array_map (array_map without_timeout) (gameBoard w) w =
    Normal (fresh_board (length (heap w)) (gameBoard w))
           (with_heap (heap w ++ copies_of w) w).
Proof.
  intros Hc. apply (array_map_alloc_rows (heap w)); [|done].
  eapply Forall_impl; [exact Hc|]. intros cells Hcells.
  eapply Forall_impl; [exact Hcells|]. intros l (p & Hl & _)%points_to_alt.
  by eapply without_timeout_allocates.
Qed.

Lemma copies_serialize w rest :
  Forall2 (Forall2 (serializes (with_heap (heap w ++ copies_of w ++ rest) w)))
          (fresh_board (length (heap w)) (gameBoard w)) (doc_of w).
Proof.
  apply Forall2_same_length_lookup_2.
  { unfold doc_of. rewrite length_map.
    by eapply Forall2_length, fresh_board_shape. }
  intros r cells js Hcells Hjs.
  unfold doc_of in Hjs. rewrite list_lookup_fmap in Hjs.
  destruct (gameBoard w !! r) as [ls|] eqn:Hls; [|done]. injection Hjs as <-.
  apply Forall2_same_length_lookup_2.
  { rewrite length_map.
    pose proof (fresh_board_shape (length (heap w)) (gameBoard w)) as Hs.
    by eapply Forall2_lookup_lr in Hs. }
  intros c l' j Hl' Hj. rewrite list_lookup_fmap in Hj.
  destruct (fresh_board_lookup (λ l, strip (heap w !!! l)) _ _ rest _ _ _ _ Hcells Hl')
    as (ls' & l & Hls' & Hl & Hcopy).
  rewrite Hls in Hls'. injection Hls' as <-. rewrite Hl in Hj. injection Hj as <-.
  exists (strip (heap w !!! l)). split; [exact Hcopy | done].
Qed.

(** [saveGameBoard] on a closed board: the document of the board is
    written, and nothing else changes but the store holding the copies. *)
Lemma saveGameBoard_normal w :
  board_closed w → saveGameBoard w = Normal tt (saved w).
Proof.
  intros Hc. unfold saveGameBoard.
  erewrite bind_normal; [|done].
  erewrite bind_normal; [|by apply copy_board].
  erewrite bind_normal; [done|].
  apply JSON_stringify_normal.
  pose proof (copies_serialize w []) as H. by rewrite app_nil_r in H.
Qed.

Lemma api_game_state_normal w :
  board_closed w →
  api_game_state w =
    Normal (json (Board (doc_of w))) (with_heap (heap w ++ copies_of w) w).
Proof.
  intros Hc. unfold api_game_state, responseBoard.
  erewrite bind_normal; [|erewrite bind_normal; [by apply copy_board | done]].
  erewrite bind_normal; [done|].
  apply JSON_stringify_normal.
  pose proof (copies_serialize w []) as H. by rewrite app_nil_r in H.
Qed.

(** ** Frames *)

Lemma board_all_frame P Q w w' :
  gameBoard w' = gameBoard w →
  (∀ l, points_to P (heap w) l → points_to Q (heap w') l) →
  board_all P w → board_all Q w'.
Proof.
  unfold board_all. intros -> Hl Hw.
  eapply Forall_impl; [exact Hw|]. intros cells Hc.
  eapply Forall_impl; [exact Hc|]. exact Hl.
Qed.

Lemma points_to_app P (h g : list Plot) l : points_to P h l → points_to P (h ++ g) l.
Proof.
  intros (p & Hl & Hp)%points_to_alt. apply points_to_alt. exists p.
  split; [by apply lookup_app_l_Some | done].
Qed.

Lemma points_to_insert P (h : list Plot) l l' p' :
  P p' → points_to P h l → points_to P (<[l' := p']> h) l.
Proof.
  intros Hp' (p & Hl & Hp)%points_to_alt. apply points_to_alt.
  destruct (decide (l' = l)) as [->|Hne].
  - exists p'. split; [|done]. apply list_lookup_insert_eq. by eapply lookup_lt_Some.
  - exists p. by rewrite list_lookup_insert_ne.
Qed.

Lemma board_all_saved P w : board_all P w → board_all P (saved w).
Proof. apply board_all_frame; [done|]. intros l. apply points_to_app. Qed.

Lemma board_all_closed P w : board_all P w → board_closed w.
Proof.
  apply board_all_frame; [done|]. intros l (p & Hl & _)%points_to_alt.
  apply points_to_alt. eauto.
Qed.

Lemma cell_Some w row col l :
  cell w row col = Some l ↔
  ∃ cells, index (gameBoard w) row = Some cells ∧ index cells col = Some l.
Proof.
  unfold cell. destruct (index (gameBoard w) row) as [cells|]; simpl.
  - split; [eauto | by intros (? & [= <-] & ?)].
  - split; [done | by intros (? & ? & ?)].
Qed.

Lemma board_all_cell P w row col l :
  board_all P w → cell w row col = Some l → points_to P (heap w) l.
Proof.
  intros Hw (cells & [_ Hr]%index_Some & [_ Hc]%index_Some)%cell_Some.
  eapply Forall_lookup_1 in Hw; [|exact Hr].
  eapply Forall_lookup_1 in Hw; [|exact Hc]. done.
Qed.

Lemma gameBoard_at_cell row col w :
  gameBoard_at row col w =
    match cell w row col with
    | Some l => Normal l w
    | None => Throw TypeError w
    end.
Proof.
  unfold gameBoard_at, cell. destruct (index (gameBoard w) row) as [cells|]; simpl; [|done].
  by destruct (index cells col).
Qed.

Lemma plot_at_Some w row col p :
  plot_at w row col = Some p ↔ ∃ l, cell w row col = Some l ∧ heap w !! l = Some p.
Proof.
  unfold plot_at. destruct (cell w row col) as [l|]; simpl.
  - split; [eauto | by intros (? & [= <-] & ?)].
  - split; [done | by intros (? & ? & ?)].
Qed.

(** A valid coordinate of a board of the configured size has a cell. *)
Lemma sized_cell w row col :
  board_sized w → invalid_coordinates (Some row) (Some col) = false →
  is_Some (cell w row col).
Proof.
  intros [Hrows Hcols]. unfold invalid_coordinates, cell, index. intros Hv.
  assert (0 ≤ row < ROWS ∧ 0 ≤ col < COLS)%Z as [Hr Hc] by lia.
  rewrite decide_True by lia.
  destruct (lookup_lt_is_Some_2 (gameBoard w) (Z.to_nat row)) as [cells Hcells]; [lia|].
  rewrite Hcells. simpl. rewrite decide_True by lia.
  eapply Forall_lookup_1 in Hcols; [|exact Hcells].
  apply lookup_lt_is_Some_2. lia.
Qed.

(** ** Running the handlers *)

Lemma deref_normal l w p : heap w !! l = Some p → deref l w = Normal p w.
Proof. intros H. unfold deref. by rewrite H. Qed.

Lemma assign_normal l f w p :
  heap w !! l = Some p →
  assign l f w = Normal tt (with_heap (<[l := f p]> (heap w)) w).
Proof. intros H. unfold assign. by rewrite H. Qed.

Lemma gameBoard_at_normal row col w l :
  cell w row col = Some l → gameBoard_at row col w = Normal l w.
Proof. intros H. by rewrite gameBoard_at_cell, H. Qed.

Lemma lookup_insert_heap (h : list Plot) l p p' :
  h !! l = Some p → <[l := p']> h !! l = Some p'.
Proof. intros H. apply list_lookup_insert_eq. by eapply lookup_lt_Some. Qed.

Lemma commit_closed w l p p' ts n :
  board_closed w → heap w !! l = Some p →
  board_closed (mkWorld (<[l := p']> (heap w)) (gameBoard w) ts n (stored w) (saves w)).
Proof.
  intros Hc Hl. eapply board_all_frame; [| |exact Hc]; [done|].
  intros l'. simpl. by apply points_to_insert.
Qed.

Ltac js_simpl :=
  unfold with_heap, with_gameBoard, with_timers, with_stored;
  cbn [heap gameBoard timers next_timer stored saves].

Ltac js_run tac :=
  erewrite bind_normal; [|tac]; js_simpl; rewrite ?list_insert_insert_eq.

Ltac js_lookup :=
  js_simpl; first [eapply lookup_insert_heap; eassumption | eassumption].
Ltac js_deref := apply deref_normal; js_lookup.
Ltac js_assign := apply assign_normal; js_lookup.
Ltac js_cell := apply gameBoard_at_normal; eassumption.
Ltac js_save H := exact (saveGameBoard_normal _ H).

Lemma plant_plot_run w row col l p :
  board_closed w → cell w row col = Some l → heap w !! l = Some p →
  plant_plot row col w =
    if String.eqb (state p) "empty" then
      Normal (json (Message true
                ("Seed planted at (" +:+ pretty row +:+ ", " +:+ pretty col +:+ ").")))
             (commit w l (mkPlot "planted" None (cleared (growthTimeout p)))
                     (cancel_ref (growthTimeout p) (timers w)) (next_timer w))
    else Normal (json_400 (Message false "Plot is not empty.")) w.
Proof.
  intros Hc Hcell Hl. unfold plant_plot.
  js_run js_cell. js_run js_deref.
  destruct (String.eqb (state p) "empty"); [|done].
  pose proof (commit_closed w l p (mkPlot "planted" None (cleared (growthTimeout p)))
    (cancel_ref (growthTimeout p) (timers w)) (next_timer w) Hc Hl) as Hc'.
  unfold commit. destruct w as [h b ts n st sv]; simpl in *.
  unfold set_state, set_lastWateredTime, set_growthTimeout.
  js_run js_assign. js_run js_assign. js_run js_deref.
  destruct (growthTimeout p) as [| |id]; simpl in *.
  - js_run ltac:(reflexivity). js_run ltac:(js_save Hc'). done.
  - js_run ltac:(reflexivity). js_run ltac:(js_save Hc'). done.
  - js_run ltac:(js_run ltac:(reflexivity); js_assign). js_run ltac:(js_save Hc'). done.
Qed.

Lemma harvest_plot_run w row col l p :
  board_closed w → cell w row col = Some l → heap w !! l = Some p →
  harvest_plot row col w =
    if String.eqb (state p) "ready" then
      Normal (json (Message true
                ("Plant at (" +:+ pretty row +:+ ", " +:+ pretty col +:+ ") harvested.")))
             (commit w l (mkPlot "empty" None (cleared (growthTimeout p)))
                     (cancel_ref (growthTimeout p) (timers w)) (next_timer w))
    else if String.eqb (state p) "empty" then
      Normal (json_400 (Message false "Nothing to harvest here. Plot is empty!")) w
    else
      Normal (json_400 (Message false "Plant is not ready to harvest yet.")) w.
Proof.
  intros Hc Hcell Hl. unfold harvest_plot.
  js_run js_cell. js_run js_deref.
  destruct (String.eqb (state p) "ready"); [|by destruct (String.eqb (state p) "empty")].
  pose proof (commit_closed w l p (mkPlot "empty" None (cleared (growthTimeout p)))
    (cancel_ref (growthTimeout p) (timers w)) (next_timer w) Hc Hl) as Hc'.
  unfold commit. destruct w as [h b ts n st sv]; simpl in *.
  unfold set_state, set_lastWateredTime, set_growthTimeout.
  js_run js_assign. js_run js_assign. js_run js_deref.
  destruct (growthTimeout p) as [| |id]; simpl in *.
  - js_run ltac:(reflexivity). js_run ltac:(js_save Hc'). done.
  - js_run ltac:(reflexivity). js_run ltac:(js_save Hc'). done.
  - js_run ltac:(js_run ltac:(reflexivity); js_assign). js_run ltac:(js_save Hc'). done.
Qed.

Lemma water_plot_run now w row col l p :
  board_closed w → cell w row col = Some l → heap w !! l = Some p →
  water_plot now row col w =
    if String.eqb (state p) "planted" then
      Normal (json (Message true (water_message row col)))
             (commit w l (mkPlot "watered" (Some now) (THandle (next_timer w)))
                (mkTimer (next_timer w) GROWTH_TIME_MS (WaterGrowth row col)
                   :: cancel_ref (growthTimeout p) (timers w))
                (S (next_timer w)))
    else if String.eqb (state p) "watered" || String.eqb (state p) "ready" then
      Normal (json_400 (Message false "Plant is already watered or ready.")) w
    else
      Normal (json_400 (Message false "Nothing to water here. Plant a seed first!")) w.
Proof.
  intros Hc Hcell Hl. unfold water_plot.
  js_run js_cell. js_run js_deref.
  destruct (String.eqb (state p) "planted");
    [|by destruct (String.eqb (state p) "watered" || String.eqb (state p) "ready")].
  pose proof (commit_closed w l p (mkPlot "watered" (Some now) (THandle (next_timer w)))
    (mkTimer (next_timer w) GROWTH_TIME_MS (WaterGrowth row col)
       :: cancel_ref (growthTimeout p) (timers w)) (S (next_timer w)) Hc Hl) as Hc'.
  unfold commit. destruct w as [h b ts n st sv]; simpl in *.
  unfold set_state, set_lastWateredTime, set_growthTimeout.
  js_run js_assign. js_run js_assign. js_run js_deref.
  destruct (growthTimeout p) as [| |id]; simpl in *.
  - js_run ltac:(reflexivity). js_run ltac:(reflexivity). js_run js_assign.
    js_run ltac:(js_save Hc'). done.
  - js_run ltac:(reflexivity). js_run ltac:(reflexivity). js_run js_assign.
    js_run ltac:(js_save Hc'). done.
  - js_run ltac:(reflexivity). js_run ltac:(reflexivity). js_run js_assign.
    js_run ltac:(js_save Hc'). done.
Qed.

Lemma water_growth_run w row col l p :
  board_closed w → cell w row col = Some l → heap w !! l = Some p →
  water_growth row col w =
    if String.eqb (state p) "watered" then
      Normal tt (commit w l (mkPlot "ready" (lastWateredTime p) TNull)
                   (timers w) (next_timer w))
    else Normal tt w.
Proof.
  intros Hc Hcell Hl. unfold water_growth.
  js_run js_cell. js_run js_deref.
  destruct (String.eqb (state p) "watered"); [|done].
  pose proof (commit_closed w l p (mkPlot "ready" (lastWateredTime p) TNull)
    (timers w) (next_timer w) Hc Hl) as Hc'.
  unfold commit. destruct w as [h b ts n st sv]; simpl in *.
  unfold set_state, set_growthTimeout.
  js_run js_cell. js_run js_assign. js_run js_cell. js_run js_assign.
  exact (saveGameBoard_normal _ Hc').
Qed.

Lemma reload_growth_run w r c l p :
  board_closed w → cell w r c = Some l → heap w !! l = Some p →
  reload_growth r c w =
    if String.eqb (state p) "watered" then
      Normal tt (commit w l (mkPlot "ready" (lastWateredTime p) (growthTimeout p))
                   (timers w) (next_timer w))
    else Normal tt w.
Proof.
  intros Hc Hcell Hl. unfold reload_growth.
  js_run js_cell. js_run js_deref.
  destruct (String.eqb (state p) "watered"); [|done].
  pose proof (commit_closed w l p (mkPlot "ready" (lastWateredTime p) (growthTimeout p))
    (timers w) (next_timer w) Hc Hl) as Hc'.
  unfold commit. destruct w as [h b ts n st sv]; simpl in *.
  unfold set_state.
  js_run js_cell. js_run js_assign.
  exact (saveGameBoard_normal _ Hc').
Qed.

(** Outside the board the lookup throws before anything is changed. *)
Lemma gameBoard_at_throw {A} row col (k : loc → Js A) w :
  cell w row col = None → (gameBoard_at row col ≫= k) w = Throw TypeError w.
Proof. intros H. apply bind_throw. by rewrite gameBoard_at_cell, H. Qed.

(** ** What one event can do *)

Lemma outcome_same e w : outcome e w w.
Proof.
  pose proof (outcome_idle e w [] (timers w)) as H.
  rewrite app_nil_r in H. destruct w. by apply H.
Qed.

Lemma cancel_subseteq id ts : cancel id ts ⊆ ts.
Proof. intros t Ht. unfold cancel in Ht. by apply list_elem_of_filter in Ht as [_ ?]. Qed.

Lemma outcome_cancelled e w id :
  outcome e w (with_timers (cancel id (timers w)) (next_timer w) w).
Proof.
  pose proof (outcome_idle e w [] (cancel id (timers w)) (cancel_subseteq _ _)) as H.
  by rewrite app_nil_r in H.
Qed.

Lemma invalid_coordinates_false row col :
  invalid_coordinates row col = false →
  ∃ r c, row = Some r ∧ col = Some c ∧ (0 ≤ r < ROWS)%Z ∧ (0 ≤ c < COLS)%Z.
Proof.
  destruct row as [r|], col as [c|]; simpl; try done.
  intros H. exists r, c. split_and!; try done; lia.
Qed.

Lemma pending_Some w id t : pending w id = Some t → t ∈ timers w ∧ timer_id t = id.
Proof.
  unfold pending. intros H. apply find_some in H as [Hin Hid].
  split; [by apply list_elem_of_In | by apply bool_decide_eq_true in Hid].
Qed.

Lemma world_after_fmap {A B} (m : Js A) (f : A → B) w :
  world_after ((m ≫= λ a, mret (f a)) w) = world_after (m w).
Proof. unfold mbind, Js_bind, js_bind. by destruct (m w). Qed.

Lemma step_outcome e w : board_closed w → outcome e w (step e w).
Proof.
  intros Hc. unfold step. destruct e as [|row col|now row col|row col|id]; simpl.
  - rewrite world_after_fmap, api_game_state_normal by done. simpl.
    by apply (outcome_idle _ w).
  - rewrite world_after_fmap. unfold api_plant.
    destruct (invalid_coordinates row col) eqn:Hv; [apply outcome_same|].
    apply invalid_coordinates_false in Hv as (r & c & -> & -> & _). simpl.
    destruct (cell w r c) as [l|] eqn:Hcell; cycle 1.
    { unfold plant_plot. rewrite gameBoard_at_throw by done. apply outcome_same. }
    pose proof (board_all_cell _ _ _ _ _ Hc Hcell) as (p & Hl & _)%points_to_alt.
    rewrite (plant_plot_run _ _ _ _ _ Hc Hcell Hl).
    destruct (String.eqb (state p) "empty") eqn:Hs; simpl; [|apply outcome_same].
    eapply outcome_commit; [done..|]. constructor. by apply String.eqb_eq.
  - rewrite world_after_fmap. unfold api_water.
    destruct (invalid_coordinates row col) eqn:Hv; [apply outcome_same|].
    apply invalid_coordinates_false in Hv as (r & c & -> & -> & _). simpl.
    destruct (cell w r c) as [l|] eqn:Hcell; cycle 1.
    { unfold water_plot. rewrite gameBoard_at_throw by done. apply outcome_same. }
    pose proof (board_all_cell _ _ _ _ _ Hc Hcell) as (p & Hl & _)%points_to_alt.
    rewrite (water_plot_run _ _ _ _ _ _ Hc Hcell Hl).
    destruct (String.eqb (state p) "planted") eqn:Hs; simpl.
    + eapply outcome_commit; [done..|]. constructor. by apply String.eqb_eq.
    + destruct (String.eqb (state p) "watered" || String.eqb (state p) "ready");
        apply outcome_same.
  - rewrite world_after_fmap. unfold api_harvest.
    destruct (invalid_coordinates row col) eqn:Hv; [apply outcome_same|].
    apply invalid_coordinates_false in Hv as (r & c & -> & -> & _). simpl.
    destruct (cell w r c) as [l|] eqn:Hcell; cycle 1.
    { unfold harvest_plot. rewrite gameBoard_at_throw by done. apply outcome_same. }
    pose proof (board_all_cell _ _ _ _ _ Hc Hcell) as (p & Hl & _)%points_to_alt.
    rewrite (harvest_plot_run _ _ _ _ _ Hc Hcell Hl).
    destruct (String.eqb (state p) "ready") eqn:Hs; simpl.
    + eapply outcome_commit; [done..|]. constructor. by apply String.eqb_eq.
    + destruct (String.eqb (state p) "empty"); apply outcome_same.
  - rewrite (world_after_fmap (fire id) (λ _, None)). unfold fire.
    destruct (List.find _ (timers w)) as [t|] eqn:Hfind; [|apply outcome_same].
    pose proof (pending_Some _ _ _ Hfind) as [_ <-].
    set (w1 := with_timers (cancel (timer_id t) (timers w)) (next_timer w) w).
    assert (board_closed w1) as Hc1 by done.
    destruct (timer_callback t) as [row col|r c] eqn:Hcb; simpl.
    + destruct (cell w row col) as [l|] eqn:Hcell; cycle 1.
      { unfold water_growth. rewrite gameBoard_at_throw by done.
        apply outcome_cancelled. }
      pose proof (board_all_cell _ _ _ _ _ Hc Hcell) as (p & Hl & _)%points_to_alt.
      rewrite (water_growth_run w1 _ _ l p) by done.
      destruct (String.eqb (state p) "watered") eqn:Hs; simpl.
      * eapply (outcome_commit _ w); [done..|].
        eapply life_water_growth; [done..|]. by apply String.eqb_eq.
      * apply outcome_cancelled.
    + destruct (cell w r c) as [l|] eqn:Hcell; cycle 1.
      { unfold reload_growth. rewrite gameBoard_at_throw by done.
        apply outcome_cancelled. }
      pose proof (board_all_cell _ _ _ _ _ Hc Hcell) as (p & Hl & _)%points_to_alt.
      rewrite (reload_growth_run w1 _ _ l p) by done.
      destruct (String.eqb (state p) "watered") eqn:Hs; simpl.
      * eapply (outcome_commit _ w); [done..|].
        eapply life_reload_growth; [done..|]. by apply String.eqb_eq.
      * apply outcome_cancelled.
Qed.

(** ** Invariants of the event loop *)

Lemma outcome_gameBoard e w w' : outcome e w w' → gameBoard w' = gameBoard w.
Proof. by destruct 1. Qed.

Lemma commit_lookup w l p' ts n l1 p1 :
  heap w !! l1 = Some p1 →
  heap (commit w l p' ts n) !! l1 = Some (if decide (l = l1) then p' else p1).
Proof.
  intros H1. unfold commit, saved. simpl. apply lookup_app_l_Some.
  case_decide as Hl.
  - subst. by eapply lookup_insert_heap.
  - by rewrite list_lookup_insert_ne.
Qed.

Lemma outcome_board_all P e w w' :
  outcome e w w' → board_all P w →
  (∀ row col p p' ts n, lifecycle w e row col p p' ts n → P p → P p') →
  board_all P w'.
Proof.
  intros [g ts Hts|row col l p p' ts n Hcell Hl Hlife] Hw HP.
  - eapply board_all_frame; [| |exact Hw]; [done|]. intros l. apply points_to_app.
  - apply board_all_saved. eapply board_all_frame; [| |exact Hw]; [done|].
    intros l'. simpl. apply points_to_insert.
    pose proof (board_all_cell _ _ _ _ _ Hw Hcell) as (q & Hq & HPq)%points_to_alt.
    assert (q = p) as -> by congruence. by eapply HP.
Qed.

Lemma step_closed e w : board_closed w → board_closed (step e w).
Proof.
  intros Hc. eapply outcome_board_all; [by apply step_outcome | done | done].
Qed.

Lemma step_gameBoard e w : board_closed w → gameBoard (step e w) = gameBoard w.
Proof. intros Hc. eapply outcome_gameBoard. by apply step_outcome. Qed.

Lemma run_cons e es w : run (e :: es) w = run es (step e w).
Proof. done. Qed.

Lemma run_snoc es e w : run (es ++ [e]) w = step e (run es w).
Proof. unfold run. by rewrite foldl_app. Qed.

(** A property of worlds kept by every event is kept by every run. *)
Lemma run_invariant (I : World → Prop) es w :
  (∀ e w, I w → I (step e w)) → I w → I (run es w).
Proof.
  intros Hstep. revert w. induction es as [|e es IH]; intros w Hw; [done|].
  rewrite run_cons. by apply IH, Hstep.
Qed.

(** *** The lifecycle *)

Lemma lifecycle_edge w e row col p p' ts n :
  lifecycle w e row col p p' ts n → edge e (state p) (state p').
Proof. destruct 1 as [? ? ? ->|? ? ? ? ->|? ? ? ->|? ? ? ? ? ? ->|? ? ? ? ? ? ->]; constructor. Qed.

Lemma edge_lifecycle_state e s s' : edge e s s' → lifecycle_state s'.
Proof. unfold lifecycle_state. destruct 1; tauto. Qed.

Lemma lifecycle_board_step e w : lifecycle_board w → lifecycle_board (step e w).
Proof.
  intros [Hsz Hst]. pose proof (board_all_closed _ _ Hst) as Hc. split.
  - unfold board_sized. by rewrite step_gameBoard.
  - eapply outcome_board_all; [by apply step_outcome | done |].
    intros row col p p' ts n Hlife _. simpl.
    eapply edge_lifecycle_state. by eapply lifecycle_edge.
Qed.

(** One event moves the plot shown at a cell along an edge, or not at all. *)
Lemma step_edge e w row col p :
  board_closed w → plot_at w row col = Some p →
  ∃ p', plot_at (step e w) row col = Some p' ∧
        (state p' = state p ∨ edge e (state p) (state p')).
Proof.
  intros Hc (l & Hcell & Hl)%plot_at_Some.
  destruct (step_outcome e w Hc) as [g ts Hts|row' col' l' q q' ts n Hcell' Hq Hlife].
  - exists p. split; [|by left]. apply plot_at_Some. exists l.
    split; [done|]. simpl. by apply lookup_app_l_Some.
  - exists (if decide (l' = l) then q' else p). split.
    + apply plot_at_Some. exists l. split; [done|]. by apply commit_lookup.
    + case_decide as Heq; [|by left]. subst l'. right.
      assert (q = p) as -> by congruence. by eapply lifecycle_edge.
Qed.

Lemma append_assoc (s1 s2 s3 : string) : s1 +:+ (s2 +:+ s3) = (s1 +:+ s2) +:+ s3.
Proof.
  induction s1 as [|a s1 IH]; [done|].
  change (String a (s1 +:+ (s2 +:+ s3)) = String a ((s1 +:+ s2) +:+ s3)).
  by f_equal.
Qed.

Lemma bind_inv {A B} (m : Js A) (k : A → Js B) w b w' :
  (m ≫= k) w = Normal b w' → ∃ a w1, m w = Normal a w1 ∧ k a w1 = Normal b w'.
Proof.
  unfold mbind, Js_bind, js_bind. destruct (m w) as [a w1|]; [eauto | done].
Qed.

Ltac js_inv H :=
  repeat (apply bind_inv in H as (? & ? & _ & H)).

(** Past the coordinate check no handler answers "Invalid plot coordinates." *)
Lemma dispatch_response a now row col w r w' :
  dispatch a now row col w = Normal r w' → r ≠ invalid_response.
Proof.
  destruct a; simpl; intros H.
  - unfold plant_plot in H. apply bind_inv in H as (l & ? & _ & H).
    apply bind_inv in H as (p & ? & _ & H).
    destruct (String.eqb (state p) "empty"); [js_inv H|]; by injection H as <-.
  - unfold water_plot in H. apply bind_inv in H as (l & ? & _ & H).
    apply bind_inv in H as (p & ? & _ & H).
    destruct (String.eqb (state p) "planted"); [js_inv H; by injection H as <-|].
    destruct (String.eqb (state p) "watered" || String.eqb (state p) "ready");
      by injection H as <-.
  - unfold harvest_plot in H. apply bind_inv in H as (l & ? & _ & H).
    apply bind_inv in H as (p & ? & _ & H).
    destruct (String.eqb (state p) "ready"); [js_inv H; by injection H as <-|].
    destruct (String.eqb (state p) "empty"); by injection H as <-.
Qed.

Lemma invalid_coordinates_spec row col :
  invalid_coordinates row col = true ↔ missing_or_outside row col.
Proof.
  destruct row as [r|], col as [c|]; simpl; try done.
  split; [intros H [? ?]; lia | intros H].
  destruct ((r <? 0)%Z || (r >=? ROWS)%Z || (c <? 0)%Z || (c >=? COLS)%Z) eqn:E; [done|].
  exfalso. apply H. lia.
Qed.

Lemma api_dispatch a now row col :
  api a now row col =
    if invalid_coordinates row col then mret invalid_response
    else dispatch a now (coordinate row) (coordinate col).
Proof. by destruct a. Qed.

Lemma doc_of_saved w : board_closed w → doc_of (saved w) = doc_of w.
Proof.
  intros Hc. unfold doc_of. simpl.
  apply list_eq_Forall2, Forall2_fmap, Forall_Forall2_diag.
  eapply Forall_impl; [exact Hc|]. intros cells Hcells.
  apply list_eq_Forall2, Forall2_fmap, Forall_Forall2_diag.
  eapply Forall_impl; [exact Hcells|]. intros l (p & Hl & _)%points_to_alt. simpl.
  f_equal. rewrite (list_lookup_total_correct _ _ _ Hl).
  apply list_lookup_total_correct. by apply lookup_app_l_Some.
Qed.

Ltac by_compute :=
  lazymatch goal with
  | |- ?P => apply (bool_decide_unpack P); vm_compute; exact I
  end.

Lemma cleared_falsy t : truthy_timeout (cleared t) = false.
Proof. by destruct t. Qed.

Lemma lifecycle_plot_invariant w e row col p p' ts n :
  lifecycle w e row col p p' ts n → plot_invariant p → plot_invariant p'.
Proof.
  unfold plot_invariant, lifecycle_state.
  intros Hlife (_ & Hlwt & Hw & _).
  destruct Hlife as [? ? p Hs|? ? ? p Hs|? ? p Hs|? ? ? p _ _ Hs|? ? ? p _ _ Hs];
    simpl; rewrite ?cleared_falsy.
  - split_and!; [tauto | split; [done | by intros [?|?]] | done | done].
  - split_and!; [tauto | split; [tauto | done] | done | by intros [?|?]].
  - split_and!; [tauto | split; [done | by intros [?|?]] | done | done].
  - split_and!; [tauto | split; [tauto | intros _; apply Hlwt; tauto]
                 | done | by intros [?|?]].
  - split_and!; [tauto | split; [tauto | intros _; apply Hlwt; tauto]
                 | done | by intros [?|?]].
Qed.

(** A growth callback, of either kind, on the plot [p] its cell holds. *)
Lemma run_callback_run w cb row col l p :
  board_closed w →
  callback_coords cb = (row, col) →
  cell w row col = Some l → heap w !! l = Some p →
  run_callback cb w =
    if String.eqb (state p) "watered" then
      Normal tt (commit w l
        (mkPlot "ready" (lastWateredTime p)
           (match cb with
            | WaterGrowth _ _ => TNull
            | ReloadGrowth _ _ => growthTimeout p
            end))
        (timers w) (next_timer w))
    else Normal tt w.
Proof.
  intros Hc Hcb Hcell Hl.
  destruct cb as [row' col'|r c]; simpl in *; injection Hcb as -> ->.
  - by apply water_growth_run.
  - by apply reload_growth_run.
Qed.

Lemma responseBoard_normal w :
  board_closed w →
  responseBoard w =
    Normal (fresh_board (length (heap w)) (gameBoard w))
           (with_heap (heap w ++ copies_of w) w).
Proof.
  intros Hc. unfold responseBoard. erewrite bind_normal; [|done]. by apply copy_board.
Qed.

Lemma copies_are_copies w :
  Forall2 (Forall2 (λ l' l, length (heap w) ≤ l' ∧
             (heap w ++ copies_of w) !! l' = Some (strip (heap w !!! l))))
          (fresh_board (length (heap w)) (gameBoard w)) (gameBoard w).
Proof.
  apply Forall2_same_length_lookup_2.
  { by eapply Forall2_length, fresh_board_shape. }
  intros r cells ls Hcells Hls.
  apply Forall2_same_length_lookup_2.
  { pose proof (fresh_board_shape (length (heap w)) (gameBoard w)) as Hs.
    by eapply Forall2_lookup_lr in Hs. }
  intros c l' l Hl' Hl. split.
  - pose proof (fresh_board_ge (length (heap w)) (gameBoard w)) as Hge.
    eapply Forall_lookup_1 in Hge; [|exact Hcells].
    by eapply Forall_lookup_1 in Hge.
  - destruct (fresh_board_lookup (λ l, strip (heap w !!! l)) _ _ [] _ _ _ _ Hcells Hl')
      as (ls' & l1 & Hls' & Hl1 & Hcopy).
    rewrite app_nil_r in Hcopy. by simplify_eq.
Qed.

(** ** Loops *)

Lemma forEach_from_app {A} (f : A → nat → Js unit) i xs ys w :
  forEach_from f i (xs ++ ys) w =
    (forEach_from f i xs ;; forEach_from f (i + length xs) ys) w.
Proof.
  revert i w. induction xs as [|x xs IH]; intros i w; simpl.
  - by rewrite Nat.add_0_r.
  - unfold mbind, Js_bind, js_bind in *. destruct (f x i w) as [[] w1|]; [|done].
    rewrite IH. by rewrite Nat.add_succ_r.
Qed.

(** A property every iteration keeps holds after the loop, which
    completes normally. *)
Lemma forEach_from_inv {A} (f : A → nat → Js unit) (P : World → Prop) xs i :
  (∀ k x, xs !! k = Some x →
          ∀ w, P w → ∃ w', f x (i + k) w = Normal tt w' ∧ P w') →
  ∀ w, P w → ∃ w', forEach_from f i xs w = Normal tt w' ∧ P w'.
Proof.
  revert i. induction xs as [|x xs IH]; intros i Hf w Hw; simpl; [by eauto|].
  destruct (Hf 0 x eq_refl w Hw) as (w1 & Hx & Hw1). rewrite Nat.add_0_r in Hx.
  rewrite (bind_normal _ _ _ _ _ Hx). apply IH; [|done].
  intros k y Hy. specialize (Hf (S k) y Hy). by rewrite Nat.add_succ_r in Hf.
Qed.

(** The iteration at [i0] takes [P] to [Q]; the others keep both. *)
Lemma forEach_target {A} (f : A → nat → Js unit) (P Q : World → Prop) xs i0 x0 :
  xs !! i0 = Some x0 →
  (∀ k x, k ≠ i0 → xs !! k = Some x →
          ∀ w, P w → ∃ w', f x k w = Normal tt w' ∧ P w') →
  (∀ k x, k ≠ i0 → xs !! k = Some x →
          ∀ w, Q w → ∃ w', f x k w = Normal tt w' ∧ Q w') →
  (∀ w, P w → ∃ w', f x0 i0 w = Normal tt w' ∧ Q w') →
  ∀ w, P w → ∃ w', forEach f xs w = Normal tt w' ∧ Q w'.
Proof.
  intros Hx0 HP HQ Hat w Hw. unfold forEach.
  pose proof (lookup_lt_Some _ _ _ Hx0) as Hlt.
  rewrite <- (take_drop_middle _ _ _ Hx0), forEach_from_app.
  destruct (forEach_from_inv f P (take i0 xs) 0) with (w := w) as (w1 & H1 & Hw1);
    [|done|].
  { intros k x Hk. simpl. apply lookup_take_Some in Hk as [Hk Hlt']. apply HP; [lia|done]. }
  rewrite (bind_normal _ _ _ _ _ H1). simpl.
  rewrite length_take, Nat.min_l by lia.
  destruct (Hat w1 Hw1) as (w2 & H2 & Hw2).
  rewrite (bind_normal _ _ _ _ _ H2).
  apply forEach_from_inv; [|done].
  intros k x Hk. rewrite lookup_drop in Hk.
  replace (S i0 + k) with (S (i0 + k)) in * by lia. apply HQ; [lia|done].
Qed.

(** Cells of an unshared board that hold the same reference are the same
    cell. *)
Lemma unshared_cells (b : list (list loc)) r c r' c' cells cells' l :
  NoDup (concat b) →
  b !! r = Some cells → cells !! c = Some l →
  b !! r' = Some cells' → cells' !! c' = Some l →
  r = r' ∧ c = c'.
Proof.
  revert r r'. induction b as [|x b IH]; intros r r'; [done|]. simpl.
  intros (Hx & Hdisj & Hb)%NoDup_app Hr Hc Hr' Hc'.
  assert (∀ k ys i, b !! k = Some ys → ys !! i = Some l → l ∈ concat b) as Hin.
  { intros k ys i Hys Hl. apply list_elem_of_In, in_concat. exists ys.
    split; apply list_elem_of_In; by eapply list_elem_of_lookup_2. }
  destruct r as [|r], r' as [|r']; simpl in *.
  - simplify_eq. split; [done|]. exact (NoDup_lookup _ _ _ _ Hx Hc Hc').
  - simplify_eq. exfalso.
    eapply Hdisj; [eapply list_elem_of_lookup_2; eassumption | eapply Hin; eassumption].
  - simplify_eq. exfalso.
    eapply Hdisj; [eapply list_elem_of_lookup_2; eassumption | eapply Hin; eassumption].
  - destruct (IH r r' Hb Hr Hc Hr' Hc') as [-> ->]. done.
Qed.

(** ** The reload *)

Lemma reload_plot_run now r c l p w :
  heap w !! l = Some p →
  reload_plot now r c l w = Normal tt (reloaded now r c l p w).
Proof.
  intros Hl. unfold reload_plot, reloaded.
  erewrite bind_normal; [|by apply deref_normal].
  destruct (String.eqb (state p) "watered" && truthy_time (lastWateredTime p)); [|done].
  simpl. destruct (0 <? _)%Z.
  - erewrite bind_normal; [|done]. unfold set_growthTimeout.
    erewrite assign_normal; [done|]. done.
  - unfold set_state. by erewrite assign_normal.
Qed.

Lemma initStorageAndLoadGameState_loaded clock d :
  initStorageAndLoadGameState clock (boot (Some d)) =
    forEach (λ cells r, forEach (λ plot c, reload_plot (clock r c) r c plot) cells)
            (fresh_board 0 d) (loaded d).
Proof.
  unfold initStorageAndLoadGameState.
  erewrite bind_normal; [|done]. simpl.
  erewrite bind_normal; cycle 1.
  { unfold JSON_parse. apply (array_map_alloc_rows [] _ parse_plot); [|done].
    apply Forall_forall. intros row _. apply Forall_forall. by intros j _ w _. }
  erewrite bind_normal; [|done]. erewrite bind_normal; [|done]. done.
Qed.

Lemma loaded_lookup d r c row j :
  d !! r = Some row → row !! c = Some j →
  ∃ cells l, fresh_board 0 d !! r = Some cells ∧ cells !! c = Some l ∧
             heap (loaded d) !! l = Some (parse_plot j).
Proof.
  intros Hrow Hj.
  pose proof (fresh_board_shape 0 d) as Hs.
  destruct (Forall2_lookup_r _ _ _ _ _ Hs Hrow) as (cells & Hcells & Hlen).
  destruct (lookup_lt_is_Some_2 cells c) as [l Hl].
  { rewrite Hlen. by eapply lookup_lt_Some. }
  exists cells, l. split_and!; [done..|].
  destruct (fresh_board_lookup parse_plot [] d [] r c cells l Hcells Hl)
    as (row' & j' & Hrow' & Hj' & Hheap).
  simpl in Hheap. rewrite app_nil_r in Hheap. by simplify_eq.
Qed.

Lemma loaded_closed d : board_closed (loaded d).
Proof.
  apply Forall_lookup_2. intros r cells Hcells.
  apply Forall_lookup_2. intros c l Hl.
  destruct (fresh_board_lookup parse_plot [] d [] r c cells l Hcells Hl)
    as (row' & j' & _ & _ & Hheap).
  simpl in Hheap. rewrite app_nil_r in Hheap.
  apply points_to_alt. eauto.
Qed.

Lemma loaded_unshared d : board_unshared (loaded d).
Proof. unfold board_unshared. simpl. rewrite fresh_board_concat. apply NoDup_seq. Qed.

Section reload_target.
(** The reload of a board [b], seen from the cell [(r0, c0)], which
    holds the reference [l0]. *)
Variables (clock : nat → nat → Z) (b : list (list loc)).
Variables (r0 c0 : nat) (cells0 : list loc) (l0 : loc).
Hypothesis Hunshared : NoDup (concat b).
Hypothesis Hrow : b !! r0 = Some cells0.
Hypothesis Hcell : cells0 !! c0 = Some l0.

Lemma reloaded_reloading now r c l p w :
  heap w !! l = Some p → reloading b w → reloading b (reloaded now r c l p w).
Proof.
  intros Hl (Hb & Hc & Hn). unfold reloaded.
  destruct (_ && _); [|done]. simpl. destruct (0 <? _)%Z.
  - split_and!; [done| |].
    + eapply board_all_frame; [| |exact Hc]; [done|].
      intros l'. simpl. by apply points_to_insert.
    + unfold timers_numbered in *. simpl. constructor; [simpl; lia|].
      eapply Forall_impl; [exact Hn|]. simpl. intros. lia.
  - split_and!; [done| |done].
    eapply board_all_frame; [| |exact Hc]; [done|].
    intros l'. simpl. by apply points_to_insert.
Qed.

Lemma other_cell_elsewhere r c :
  (r, c) ≠ (r0, c0) →
  ¬ growth_here r0 c0 (mkTimer 0 0 (ReloadGrowth (Z.of_nat r) (Z.of_nat c))).
Proof. unfold growth_here. simpl. intros Hne [= ?%Nat2Z.inj ?%Nat2Z.inj]. congruence. Qed.

Lemma waiting_kept q : kept b r0 c0 l0 (waiting b r0 c0 l0 q).
Proof.
  split; [by intros w [? _]|].
  intros now r c l p w Hl Hrc Hp (Hre & Hq & Hts).
  split; [by apply reloaded_reloading|].
  unfold reloaded. destruct (_ && _); [|done]. simpl. destruct (0 <? _)%Z; simpl.
  - rewrite list_lookup_insert_ne by done. split; [done|].
    constructor; [|done]. by apply (other_cell_elsewhere r c).
  - by rewrite list_lookup_insert_ne.
Qed.

Lemma armed_kept q delay : kept b r0 c0 l0 (armed b r0 c0 l0 q delay).
Proof.
  split; [by intros w [? _]|].
  intros now r c l p w Hl Hrc Hp (Hre & id & Hq & Hpend & Hts).
  split; [by apply reloaded_reloading|]. exists id.
  unfold reloaded. destruct (_ && _); [|by split_and!].
  simpl. destruct (0 <? _)%Z; simpl.
  - rewrite list_lookup_insert_ne by done. split_and!; [done| |].
    + unfold pending in *. simpl. rewrite bool_decide_eq_false_2; [done|].
      destruct Hre as (_ & _ & Hn). apply pending_Some in Hpend as [Hin _].
      eapply Forall_forall in Hn; [|exact Hin]. simpl in Hn. lia.
    + constructor; [|done]. intros Hhere.
      by apply (other_cell_elsewhere r c) in Hhere.
  - by rewrite list_lookup_insert_ne.
Qed.

Lemma reload_goal_kept now q : kept b r0 c0 l0 (reload_goal b r0 c0 l0 now q).
Proof.
  unfold reload_goal. destruct (_ && _); [|apply waiting_kept].
  simpl. destruct (0 <? _)%Z; [apply armed_kept | apply waiting_kept].
Qed.

Lemma reload_at_target now p w :
  waiting b r0 c0 l0 p w → reload_goal b r0 c0 l0 now p (reloaded now r0 c0 l0 p w).
Proof.
  intros (Hre & Hp & Hts).
  pose proof (reloaded_reloading now r0 c0 l0 p w Hp Hre) as Hre'.
  unfold reload_goal, reloaded in *.
  destruct (_ && _); [|done]. simpl in *. destruct (0 <? _)%Z; simpl.
  - split; [done|]. exists (next_timer w). simpl. split_and!.
    + by eapply lookup_insert_heap.
    + unfold pending. simpl. by rewrite bool_decide_eq_true_2.
    + constructor; [done|]. eapply Forall_impl; [exact Hts|]. by intros t Ht ?.
  - split; [done|]. split; [|done]. simpl. by eapply lookup_insert_heap.
Qed.

Lemma reload_other_cell Q r c cells l :
  kept b r0 c0 l0 Q → b !! r = Some cells → cells !! c = Some l → (r, c) ≠ (r0, c0) →
  ∀ w, Q w → ∃ w', reload_plot (clock r c) r c l w = Normal tt w' ∧ Q w'.
Proof.
  intros [Hre Hkept] Hcells Hl Hrc w Hw.
  destruct (Hre w Hw) as (Hb & Hc & _).
  assert (points_to (λ _, True) (heap w) l) as (p & Hp & _)%points_to_alt.
  { unfold board_closed, board_all in Hc. rewrite Hb in Hc.
    eapply Forall_lookup_1 in Hc; [|exact Hcells].
    by eapply Forall_lookup_1 in Hc. }
  exists (reloaded (clock r c) r c l p w). split; [by apply reload_plot_run|].
  apply Hkept; [|done..]. intros ->.
  destruct (unshared_cells b r c r0 c0 cells cells0 l0) as [-> ->]; done.
Qed.

Lemma reload_other_row Q r cells :
  kept b r0 c0 l0 Q → b !! r = Some cells → r ≠ r0 →
  ∀ w, Q w →
    ∃ w', forEach (λ plot c, reload_plot (clock r c) r c plot) cells w
            = Normal tt w' ∧ Q w'.
Proof.
  intros HQ Hcells Hr. apply forEach_from_inv. intros c l Hl. simpl.
  eapply reload_other_cell; [done..|]. intros [= ? _]. done.
Qed.

Lemma reload_board p w :
  waiting b r0 c0 l0 p w →
  ∃ w', forEach (λ cells r, forEach (λ plot c, reload_plot (clock r c) r c plot) cells)
          b w = Normal tt w' ∧
        reload_goal b r0 c0 l0 (clock r0 c0) p w'.
Proof.
  apply (forEach_target _ (waiting b r0 c0 l0 p) (reload_goal b r0 c0 l0 (clock r0 c0) p) b r0 cells0 Hrow).
  - intros r cells Hr Hcells. by apply reload_other_row; [apply waiting_kept|..].
  - intros r cells Hr Hcells. by apply reload_other_row; [apply reload_goal_kept|..].
  - apply (forEach_target _ (waiting b r0 c0 l0 p) (reload_goal b r0 c0 l0 (clock r0 c0) p) cells0 c0 l0 Hcell).
    + intros c l Hc Hl. eapply reload_other_cell; [apply waiting_kept|done..|].
      intros [= ?]. done.
    + intros c l Hc Hl. eapply reload_other_cell; [apply reload_goal_kept|done..|].
      intros [= ?]. done.
    + intros w1 Hw1. exists (reloaded (clock r0 c0) r0 c0 l0 p w1).
      split; [|by apply reload_at_target].
      apply reload_plot_run. by destruct Hw1 as (_ & ? & _).
Qed.
End reload_target.

Lemma unshared_cell w row col row' col' l :
  board_unshared w → cell w row col = Some l → cell w row' col' = Some l →
  row = row' ∧ col = col'.
Proof.
  intros Hu (cells & [? Hr]%index_Some & [? Hc]%index_Some)%cell_Some
            (cells' & [? Hr']%index_Some & [? Hc']%index_Some)%cell_Some.
  destruct (unshared_cells _ _ _ _ _ _ _ _ Hu Hr Hc Hr' Hc') as [Hrow Hcol].
  apply Z2Nat.inj in Hrow, Hcol; done.
Qed.

(** After start-up on a stored document, the cell of each stored plot
    is as [reload_goal] says. *)
Lemma reload_cell_goal clock d r c row j :
  d !! r = Some row → row !! c = Some j →
  ∃ l w,
    initStorageAndLoadGameState clock (boot (Some d)) = Normal tt w ∧
    cell w (Z.of_nat r) (Z.of_nat c) = Some l ∧
    board_unshared w ∧
    reload_goal (fresh_board 0 d) r c l (clock r c) (parse_plot j) w.
Proof.
  intros Hrow Hj.
  destruct (loaded_lookup d r c row j Hrow Hj) as (cells & l & Hcells & Hl & Hheap).
  destruct (reload_board clock (fresh_board 0 d) r c cells l (loaded_unshared d)
              Hcells Hl (parse_plot j) (loaded d)) as (w & Hrun & Hgoal).
  { unfold waiting, reloading, timers_numbered.
    split_and!; [done | apply loaded_closed | by constructor | done | by constructor]. }
  exists l, w. rewrite initStorageAndLoadGameState_loaded.
  assert (reloading (fresh_board 0 d) w) as (Hb & _ & _).
  { by apply (reload_goal_kept (fresh_board 0 d) r c l (clock r c) (parse_plot j)). }
  split_and!; [done| | |done].
  - apply cell_Some. exists cells. rewrite Hb, !index_of_nat. done.
  - unfold board_unshared. rewrite Hb. apply (loaded_unshared d).
Qed.

Lemma cancel_ref_subseteq t ts : cancel_ref t ts ⊆ ts.
Proof. destruct t; simpl; [done..|]. apply cancel_subseteq. Qed.

Lemma stuck_step row col e w : stuck row col w → stuck row col (step e w).
Proof.
  intros (Hc & Hu & (p & (l & Hcell & Hl)%plot_at_Some & Hs) & Hts).
  pose proof (step_outcome e w Hc) as Hout.
  split_and!.
  - by apply step_closed.
  - unfold board_unshared. by rewrite step_gameBoard.
  - destruct Hout as [g ts Hsub|row' col' l' q q' ts n Hcell' Hq Hlife].
    + exists p. split; [|done]. apply plot_at_Some. exists l.
      split; [done|]. simpl. by apply lookup_app_l_Some.
    + exists p. split; [|done]. apply plot_at_Some. exists l. split; [done|].
      erewrite commit_lookup by done. rewrite decide_False; [done|]. intros ->.
      assert (q = p) as -> by congruence.
      destruct (unshared_cell _ _ _ _ _ _ Hu Hcell Hcell') as [<- <-].
      destruct Hlife as [? ? ? Hq'|? ? ? ? Hq'|? ? ? Hq'
                         |t ? ? ? Hpend Hcb _|t ? ? ? Hpend Hcb _];
        try congruence.
      * apply pending_Some in Hpend as [Hin _].
        eapply Forall_forall in Hts; [|exact Hin]. by rewrite Hcb in Hts.
      * apply pending_Some in Hpend as [Hin _].
        eapply Forall_forall in Hts; [|exact Hin]. by rewrite Hcb in Hts.
  - assert (∀ ts, ts ⊆ timers w →
              Forall (λ t, callback_coords (timer_callback t) ≠ (row, col)) ts) as Hsub.
    { intros ts Hsub. apply Forall_forall. intros t Ht.
      eapply Forall_forall in Hts; [done|]. by apply Hsub. }
    destruct Hout as [g ts Hts'|row' col' l' q q' ts n Hcell' Hq Hlife]; simpl.
    { by apply Hsub. }
    destruct Hlife as [? ? ? Hq'|? ? ? ? Hq'|? ? ? Hq'|t ? ? ? _ _ _|t ? ? ? _ _ _]; simpl.
    + apply Hsub, cancel_ref_subseteq.
    + constructor; [|apply Hsub, cancel_ref_subseteq]. simpl. intros [= -> ->].
      assert (l' = l) as -> by congruence. congruence.
    + apply Hsub, cancel_ref_subseteq.
    + apply Hsub, cancel_subseteq.
    + apply Hsub, cancel_subseteq.
Qed.

(** The growth callback re-established at start-up leaves the handle of
    its own timeout on the plot, where the one armed by [/api/water]
    resets [growthTimeout] to [null]. *)
Example reload_growth_keeps_handle :
  plot_at (step (TimerFires 0)
             (world_after (initStorageAndLoadGameState (λ _ _, 7000%Z)
                             (boot (Some sample_doc))))) 0 1
  = Some (mkPlot "ready" (Some 4000%Z) (THandle 0)).
Proof. vm_compute. reflexivity. Qed.

(** A remaining time beyond [TIMEOUT_MAX]: for a plot stored as watered
    at 10^13 and a clock that reads 7000 the reload asks for a timer of
    9999999998000 ms, and gets one of 1 ms. *)
Example reload_far_ahead_fires_at_once :
  timers (world_after (initStorageAndLoadGameState (λ _ _, 7000%Z)
            (boot (Some [[mkPlotJson "watered" (Some 10000000000000%Z) false]]))))
  = [mkTimer 0 1 (ReloadGrowth 0 0)].
Proof. vm_compute. reflexivity. Qed.

(** ** Lemmas for the further properties *)

Lemma effect_same e w : effect e w w.
Proof.
  pose proof (effect_none e w []) as H. rewrite app_nil_r in H.
  by rewrite with_heap_heap in H.
Qed.

Lemma step_effect e w : board_closed w → effect e w (step e w).
Proof.
  intros Hc. unfold step. destruct e as [|row col|now row col|row col|id]; simpl.
  - rewrite world_after_fmap, api_game_state_normal by done. simpl.
    apply effect_none.
  - rewrite world_after_fmap. unfold api_plant.
    destruct (invalid_coordinates row col) eqn:Hv; [apply effect_same|].
    pose proof Hv as (r & c & -> & -> & _)%invalid_coordinates_false. simpl.
    destruct (cell w r c) as [l|] eqn:Hcell; cycle 1.
    { unfold plant_plot. rewrite gameBoard_at_throw by done. apply effect_same. }
    pose proof (board_all_cell _ _ _ _ _ Hc Hcell) as (p & Hl & _)%points_to_alt.
    rewrite (plant_plot_run _ _ _ _ _ Hc Hcell Hl).
    destruct (String.eqb (state p) "empty") eqn:Hs; simpl; [|apply effect_same].
    eapply effect_commit; [by unfold event_cell; rewrite Hv|done..|].
    constructor. by apply String.eqb_eq.
  - rewrite world_after_fmap. unfold api_water.
    destruct (invalid_coordinates row col) eqn:Hv; [apply effect_same|].
    pose proof Hv as (r & c & -> & -> & _)%invalid_coordinates_false. simpl.
    destruct (cell w r c) as [l|] eqn:Hcell; cycle 1.
    { unfold water_plot. rewrite gameBoard_at_throw by done. apply effect_same. }
    pose proof (board_all_cell _ _ _ _ _ Hc Hcell) as (p & Hl & _)%points_to_alt.
    rewrite (water_plot_run _ _ _ _ _ _ Hc Hcell Hl).
    destruct (String.eqb (state p) "planted") eqn:Hs; simpl.
    + eapply effect_commit; [by unfold event_cell; rewrite Hv|done..|].
      constructor. by apply String.eqb_eq.
    + destruct (String.eqb (state p) "watered" || String.eqb (state p) "ready");
        apply effect_same.
  - rewrite world_after_fmap. unfold api_harvest.
    destruct (invalid_coordinates row col) eqn:Hv; [apply effect_same|].
    pose proof Hv as (r & c & -> & -> & _)%invalid_coordinates_false. simpl.
    destruct (cell w r c) as [l|] eqn:Hcell; cycle 1.
    { unfold harvest_plot. rewrite gameBoard_at_throw by done. apply effect_same. }
    pose proof (board_all_cell _ _ _ _ _ Hc Hcell) as (p & Hl & _)%points_to_alt.
    rewrite (harvest_plot_run _ _ _ _ _ Hc Hcell Hl).
    destruct (String.eqb (state p) "ready") eqn:Hs; simpl.
    + eapply effect_commit; [by unfold event_cell; rewrite Hv|done..|].
      constructor. by apply String.eqb_eq.
    + destruct (String.eqb (state p) "empty"); apply effect_same.
  - rewrite (world_after_fmap (fire id) (λ _, None)). unfold fire.
    destruct (List.find _ (timers w)) as [t|] eqn:Hfind; [|apply effect_same].
    pose proof (pending_Some _ _ _ Hfind) as [_ <-].
    set (w1 := with_timers (cancel (timer_id t) (timers w)) (next_timer w) w).
    assert (board_closed w1) as Hc1 by done.
    destruct (callback_coords (timer_callback t)) as [row col] eqn:Hcb.
    destruct (cell w row col) as [l|] eqn:Hcell; cycle 1.
    { assert (run_callback (timer_callback t) w1 = Throw TypeError w1) as ->.
      { destruct (timer_callback t); simpl in *; injection Hcb as -> ->.
        - unfold water_growth. by rewrite gameBoard_at_throw.
        - unfold reload_growth. by rewrite gameBoard_at_throw. }
      apply effect_stale; [done..|]. intros row' col' p Hcb' Hat.
      rewrite Hcb in Hcb'. injection Hcb' as <- <-.
      apply plot_at_Some in Hat as (? & ? & _). congruence. }
    pose proof (board_all_cell _ _ _ _ _ Hc Hcell) as (p & Hl & _)%points_to_alt.
    rewrite (run_callback_run w1 _ row col l p) by done.
    destruct (String.eqb (state p) "watered") eqn:Hs; simpl.
    + eapply (effect_commit _ w); [unfold event_cell, pending; rewrite Hfind; simpl; by rewrite Hcb|done..|].
      destruct (timer_callback t) eqn:Hcb'; simpl in Hcb; injection Hcb as -> ->.
      * eapply life_water_growth; [done..|]. by apply String.eqb_eq.
      * eapply life_reload_growth; [done..|]. by apply String.eqb_eq.
    + apply effect_stale; [done..|]. intros row' col' p' Hcb' Hat.
      rewrite Hcb in Hcb'. injection Hcb' as <- <-.
      apply plot_at_Some in Hat as (l' & ? & ?).
      assert (l' = l) as -> by congruence. assert (p' = p) as -> by congruence.
      by apply String.eqb_neq.
Qed.


Lemma plot_at_app w g row col :
  board_closed w →
  plot_at (with_heap (heap w ++ g) w) row col = plot_at w row col.
Proof.
  intros Hc. unfold plot_at.
  change (cell (with_heap _ _) row col) with (cell w row col).
  destruct (cell w row col) as [l|] eqn:Hcell; [simpl|done].
  pose proof (board_all_cell _ _ _ _ _ Hc Hcell) as (p & Hp & _)%points_to_alt.
  rewrite Hp. by apply lookup_app_l_Some.
Qed.

Lemma plot_at_commit w row col l p' ts n r c :
  board_closed w → board_unshared w → cell w row col = Some l →
  plot_at (commit w l p' ts n) r c =
    if decide ((r, c) = (row, col)) then Some p' else plot_at w r c.
Proof.
  intros Hc Hu Hcell.
  pose proof (board_all_cell _ _ _ _ _ Hc Hcell) as (p & Hp & _)%points_to_alt.
  case_decide as Heq.
  - injection Heq as -> ->. apply plot_at_Some. exists l. split; [done|].
    erewrite commit_lookup by done. by rewrite decide_True.
  - destruct (cell w r c) as [l'|] eqn:Hcell'; cycle 1.
    { unfold plot_at. change (cell (commit _ _ _ _ _) r c) with (cell w r c).
      by rewrite Hcell'. }
    pose proof (board_all_cell _ _ _ _ _ Hc Hcell') as (q & Hq & _)%points_to_alt.
    transitivity (Some q); [|symmetry; apply plot_at_Some; eauto].
    apply plot_at_Some. exists l'. split; [done|].
    erewrite commit_lookup by done. rewrite decide_False; [done|].
    intros ->. destruct (unshared_cell _ _ _ _ _ _ Hu Hcell Hcell') as [-> ->]. done.
Qed.

Lemma doc_of_app w g :
  board_closed w → doc_of (with_heap (heap w ++ g) w) = doc_of w.
Proof.
  intros Hc. unfold doc_of. simpl.
  apply list_eq_Forall2, Forall2_fmap, Forall_Forall2_diag.
  eapply Forall_impl; [exact Hc|]. intros cells Hcells.
  apply list_eq_Forall2, Forall2_fmap, Forall_Forall2_diag.
  eapply Forall_impl; [exact Hcells|]. intros l (p & Hl & _)%points_to_alt. simpl.
  f_equal. rewrite (list_lookup_total_correct _ _ _ Hl).
  apply list_lookup_total_correct. by apply lookup_app_l_Some.
Qed.

Lemma storage_current_step e w : storage_current w → storage_current (step e w).
Proof.
  intros [Hc Hst]. split; [by apply step_closed|].
  destruct (step_effect e w Hc) as [g|t _ _ _|row' col' l p p' ts n Hev Hcell Hl Hlife].
  - rewrite doc_of_app by done. done.
  - done.
  - unfold commit. rewrite doc_of_saved; [done|]. by eapply commit_closed.
Qed.

Lemma commit_board_closed w l p p' ts n :
  board_closed w → heap w !! l = Some p → board_closed (commit w l p' ts n).
Proof. intros Hc Hl. apply board_all_saved. by eapply commit_closed. Qed.

Lemma commit_stored w l p p' ts n :
  board_closed w → heap w !! l = Some p →
  stored (commit w l p' ts n) = Some (doc_of (commit w l p' ts n)).
Proof.
  intros Hc Hl. unfold commit. rewrite doc_of_saved; [done|]. by eapply commit_closed.
Qed.

Lemma dispatch_normal a now w row col l p :
  board_closed w → cell w row col = Some l → heap w !! l = Some p →
  is_Some (response (dispatch a now row col w)).
Proof.
  intros Hc Hcell Hl. destruct a; simpl.
  - rewrite (plant_plot_run _ _ _ _ _ Hc Hcell Hl). by destruct (String.eqb _ _).
  - rewrite (water_plot_run _ _ _ _ _ _ Hc Hcell Hl).
    destruct (String.eqb _ _); [done|]. by destruct (_ || _).
  - rewrite (harvest_plot_run _ _ _ _ _ Hc Hcell Hl).
    destruct (String.eqb _ _); [done|]. by destruct (String.eqb _ _).
Qed.

Lemma same_id_same_timer (ts : list Timer) t1 t2 :
  NoDup (timer_id <$> ts) → t1 ∈ ts → t2 ∈ ts →
  timer_id t1 = timer_id t2 → t1 = t2.
Proof.
  intros Hnd (i & Hi)%list_elem_of_lookup (j & Hj)%list_elem_of_lookup Hid.
  assert (i = j) as ->; [|congruence].
  eapply NoDup_lookup; [exact Hnd|..].
  - by rewrite list_lookup_fmap, Hi.
  - by rewrite list_lookup_fmap, Hj, Hid.
Qed.

Lemma cancel_elem id ts t : t ∈ cancel id ts ↔ timer_id t ≠ id ∧ t ∈ ts.
Proof. unfold cancel. by rewrite list_elem_of_filter. Qed.

Lemma cancel_NoDup id ts :
  NoDup (timer_id <$> ts) → NoDup (timer_id <$> cancel id ts).
Proof.
  induction ts as [|t ts IH]; [done|]. rewrite fmap_cons. intros [Hnot Hnd]%NoDup_cons.
  unfold cancel in *. rewrite filter_cons. case_decide; [|by apply IH].
  rewrite fmap_cons. apply NoDup_cons. split; [|by apply IH].
  intros (t' & Hid & [_ Hin]%cancel_elem)%list_elem_of_fmap. apply Hnot.
  apply list_elem_of_fmap. eauto.
Qed.

Lemma cancel_ref_NoDup r ts :
  NoDup (timer_id <$> ts) → NoDup (timer_id <$> cancel_ref r ts).
Proof. destruct r; simpl; [done..|]. apply cancel_NoDup. Qed.

Lemma timer_owned_cell w t row col p :
  timer_owned w t → timer_cell t = (row, col) → plot_at w row col = Some p →
  state p = "watered" ∧ growthTimeout p = THandle (timer_id t).
Proof. intros (q & Hq & ? & ?) Hcell Hp. rewrite Hcell in Hq. simpl in Hq. by simplify_eq. Qed.

(** The pending timeouts survive [cancel_ref] of the handle of a plot
    that is not watered. *)
Lemma cancel_ref_keeps w row col p t :
  handles_known w → plot_at w row col = Some p → state p ≠ "watered" →
  t ∈ timers w → t ∈ cancel_ref (growthTimeout p) (timers w).
Proof.
  intros Hk Hp Hs Ht. destruct (growthTimeout p) as [| |id] eqn:Hg; simpl; [done..|].
  apply cancel_elem. split; [|done].
  destruct (Hk row col p id Hp Hg) as [_ Hnot].
  eapply Forall_forall in Hnot; done.
Qed.

Lemma consistent_commit w row col l p p' ts n :
  timers_consistent w →
  cell w row col = Some l → heap w !! l = Some p →
  next_timer w ≤ n →
  Forall (λ t, timer_id t < n) ts →
  NoDup (timer_id <$> ts) →
  Forall (λ t, (t ∈ timers w ∧ timer_cell t ≠ (row, col)) ∨
               (timer_cell t = (row, col) ∧ state p' = "watered" ∧
                growthTimeout p' = THandle (timer_id t) ∧
                next_timer w ≤ timer_id t)) ts →
  (∀ id, growthTimeout p' = THandle id →
         id < n ∧ (state p' ≠ "watered" → Forall (λ t, timer_id t ≠ id) ts)) →
  (state p' = "watered" →
   ∃ t, t ∈ ts ∧ timer_cell t = (row, col) ∧ growthTimeout p' = THandle (timer_id t)) →
  (∀ t, t ∈ timers w → timer_cell t ≠ (row, col) → t ∈ ts) →
  timers_consistent (commit w l p' ts n).
Proof.
  intros (Hc & Hu & Hnum & Hnd & Hown & Hknown & Harmed)
         Hcell Hl Hn Hnum' Hnd' Hts Hp' Harm' Hkeep.
  assert (∀ r c, plot_at (commit w l p' ts n) r c =
                 if decide ((r, c) = (row, col)) then Some p' else plot_at w r c) as Hat.
  { intros r c. by apply plot_at_commit. }
  split_and!.
  - by eapply commit_board_closed.
  - done.
  - done.
  - done.
  - apply Forall_forall. intros t Ht. eapply Forall_forall in Hts; [|exact Ht].
    unfold timer_owned. destruct (timer_cell t) as [r c] eqn:Htc. simpl. rewrite Hat.
    destruct Hts as [[Hin Hne]|(Heq & ? & ? & _)].
    + rewrite decide_False by done.
      eapply Forall_forall in Hown; [|exact Hin].
      destruct Hown as (q & Hq & ? & ?). rewrite Htc in Hq. eauto.
    + rewrite decide_True by done. eauto.
  - intros r c q id. rewrite Hat. case_decide as Heq.
    + intros [= <-] Hg. by apply Hp'.
    + intros Hq Hg. destruct (Hknown r c q id Hq Hg) as [Hlt Hnot].
      split; [simpl; lia|]. intros Hs. specialize (Hnot Hs). simpl.
      apply Forall_forall. intros t Ht. eapply Forall_forall in Hts; [|exact Ht].
      destruct Hts as [[Hin _]|(_ & _ & _ & Hge)]; [|lia].
      eapply Forall_forall in Hnot; done.
  - intros r c q. rewrite Hat. case_decide as Heq.
    + injection Heq as -> ->. intros [= <-]. done.
    + intros Hq Hs. destruct (Harmed r c q Hq Hs) as (t & Hin & Htc & Hg).
      exists t. split_and!; [|done..]. simpl. apply Hkeep; [done|]. by rewrite Htc.
Qed.

Lemma cleared_no_handle t id : cleared t ≠ THandle id.
Proof. by destruct t. Qed.

Lemma consistent_frame w w' :
  board_closed w' → gameBoard w' = gameBoard w →
  (∀ r c, plot_at w' r c = plot_at w r c) →
  timers w' = timers w → next_timer w' = next_timer w →
  timers_consistent w → timers_consistent w'.
Proof.
  intros Hc' Hb Hat Hts Hn (Hc & Hu & Hnum & Hnd & Hown & Hknown & Harmed).
  unfold timers_consistent, board_unshared, timers_numbered, timer_owned,
    handles_known, watered_armed.
  rewrite Hb, Hts, Hn. setoid_rewrite Hat. done.
Qed.

(** A pending timeout whose cell is not [(row, col)], when the plot
    there is not watered. *)
Lemma timers_elsewhere w row col p t :
  Forall (timer_owned w) (timers w) →
  plot_at w row col = Some p → state p ≠ "watered" →
  t ∈ timers w → timer_cell t ≠ (row, col).
Proof.
  intros Hown Hp Hs Ht Htc. eapply Forall_forall in Hown; [|exact Ht].
  by destruct (timer_owned_cell _ _ _ _ _ Hown Htc Hp).
Qed.

Lemma timers_consistent_step e w : timers_consistent w → timers_consistent (step e w).
Proof.
  intros Hw. pose proof Hw as (Hc & Hu & Hnum & Hnd & Hown & Hknown & Harmed).
  destruct (step_effect e w Hc) as [g|t _ Hpend Hstale|row col l p p' ts n Hev Hcell Hl Hlife].
  - eapply consistent_frame; [..|exact Hw]; try done.
    + eapply board_all_frame; [| |exact Hc]; [done|]. intros l. apply points_to_app.
    + intros r c. by apply plot_at_app.
  - exfalso. apply pending_Some in Hpend as [Hin _].
    eapply Forall_forall in Hown; [|exact Hin].
    destruct Hown as (p & Hp & Hs & _).
    eapply (Hstale (timer_cell t).1 (timer_cell t).2); [|done..].
    unfold timer_cell. by destruct (callback_coords _).
  - assert (plot_at w row col = Some p) as Hp by (apply plot_at_Some; eauto).
    assert (∀ ts', ts' ⊆ timers w → Forall (λ t, timer_id t < next_timer w) ts') as Hsub.
    { intros ts' Hts'. apply Forall_forall. intros t Ht.
      eapply Forall_forall in Hnum; [done|]. by apply Hts'. }
    destruct Hlife as [? ? p Hs|now ? ? p Hs|? ? p Hs
                       |t0 row0 col0 p Hpend Hcb Hs|t0 row0 col0 p Hpend Hcb Hs].
    + assert (state p ≠ "watered") as Hs' by (rewrite Hs; done).
      eapply consistent_commit; try done.
      * apply Hsub, cancel_ref_subseteq.
      * by apply cancel_ref_NoDup.
      * apply Forall_forall. intros t Ht%cancel_ref_subseteq. left.
        split; [done|]. by eapply timers_elsewhere.
      * simpl. intros id Hid. by apply cleared_no_handle in Hid.
      * intros t Ht _. by eapply cancel_ref_keeps.
    + assert (state p ≠ "watered") as Hs' by (rewrite Hs; done).
      eapply consistent_commit; try done.
      * lia.
      * constructor; [simpl; lia|].
        eapply Forall_impl; [apply Hsub, cancel_ref_subseteq|]. simpl. intros. lia.
      * rewrite fmap_cons. apply NoDup_cons. split; [|by apply cancel_ref_NoDup].
        intros (t & Hid & Ht%cancel_ref_subseteq)%list_elem_of_fmap.
        eapply Forall_forall in Hnum; [|exact Ht]. simpl in *. lia.
      * constructor; [right; by split_and!|].
        apply Forall_forall. intros t Ht%cancel_ref_subseteq. left.
        split; [done|]. by eapply timers_elsewhere.
      * simpl. intros id [= <-]. split; [lia|done].
      * intros _. eexists. split; [apply list_elem_of_here|]. done.
      * intros t Ht _. apply list_elem_of_further. by eapply cancel_ref_keeps.
    + assert (state p ≠ "watered") as Hs' by (rewrite Hs; done).
      eapply consistent_commit; try done.
      * apply Hsub, cancel_ref_subseteq.
      * by apply cancel_ref_NoDup.
      * apply Forall_forall. intros t Ht%cancel_ref_subseteq. left.
        split; [done|]. by eapply timers_elsewhere.
      * simpl. intros id Hid. by apply cleared_no_handle in Hid.
      * intros t Ht _. by eapply cancel_ref_keeps.
    + pose proof (pending_Some _ _ _ Hpend) as [Hin0 _].
      assert (timer_cell t0 = (row0, col0)) as Htc0 by (unfold timer_cell; by rewrite Hcb).
      eapply Forall_forall in Hown as Hown0; [|exact Hin0].
      destruct (timer_owned_cell _ _ _ _ _ Hown0 Htc0 Hp) as [_ Hg].
      eapply consistent_commit; try done.
      * apply Hsub, cancel_subseteq.
      * by apply cancel_NoDup.
      * apply Forall_forall. intros t [Hid Ht]%cancel_elem. left. split; [done|].
        intros Htc. eapply Forall_forall in Hown; [|exact Ht].
        destruct (timer_owned_cell _ _ _ _ _ Hown Htc Hp) as [_ Hg']. congruence.
      * intros t Ht Htc. apply cancel_elem. split; [|done]. intros Hid.
        assert (t = t0) as -> by by eapply same_id_same_timer. done.
    + pose proof (pending_Some _ _ _ Hpend) as [Hin0 _].
      assert (timer_cell t0 = (row0, col0)) as Htc0 by (unfold timer_cell; by rewrite Hcb).
      eapply Forall_forall in Hown as Hown0; [|exact Hin0].
      destruct (timer_owned_cell _ _ _ _ _ Hown0 Htc0 Hp) as [_ Hg].
      eapply consistent_commit; try done.
      * apply Hsub, cancel_subseteq.
      * by apply cancel_NoDup.
      * apply Forall_forall. intros t [Hid Ht]%cancel_elem. left. split; [done|].
        intros Htc. eapply Forall_forall in Hown; [|exact Ht].
        destruct (timer_owned_cell _ _ _ _ _ Hown Htc Hp) as [_ Hg']. congruence.
      * simpl. rewrite Hg. intros id [= <-]. split.
        -- eapply Forall_forall in Hnum; [|exact Hin0]. done.
        -- intros _. apply Forall_forall. by intros t [? _]%cancel_elem.
      * intros t Ht Htc. apply cancel_elem. split; [|done]. intros Hid.
        assert (t = t0) as -> by by eapply same_id_same_timer. done.
Qed.

Lemma quiet_consistent w : quiet w → timers_consistent w.
Proof.
  intros (Hc & Hu & Hts & Hall).
  assert (∀ row col p, plot_at w row col = Some p →
            state p ≠ "watered" ∧ truthy_timeout (growthTimeout p) = false) as Hp.
  { intros row col p (l & Hcell & Hl)%plot_at_Some.
    pose proof (board_all_cell _ _ _ _ _ Hall Hcell) as (q & Hq & ?)%points_to_alt.
    by simplify_eq. }
  unfold timers_consistent, timers_numbered.
  rewrite Hts. split_and!; try done; try by constructor.
  - intros row col p id Hat Hg. destruct (Hp _ _ _ Hat) as [_ Hno].
    by rewrite Hg in Hno.
  - intros row col p Hat Hs. by destruct (Hp _ _ _ Hat).
Qed.

Lemma pending_member w t :
  NoDup (timer_id <$> timers w) → t ∈ timers w → pending w (timer_id t) = Some t.
Proof.
  intros Hnd Hin. unfold pending.
  destruct (List.find _ (timers w)) as [t'|] eqn:Hfind.
  - apply find_some in Hfind as [Hin'%list_elem_of_In Hid%bool_decide_eq_true].
    f_equal. by eapply same_id_same_timer.
  - eapply find_none in Hfind; [|by apply list_elem_of_In].
    by apply bool_decide_eq_false in Hfind.
Qed.

Lemma step_plant w row col l p :
  invalid_coordinates (Some row) (Some col) = false → board_closed w →
  cell w row col = Some l → heap w !! l = Some p → state p = "empty" →
  step (PostPlant (Some row) (Some col)) w =
    commit w l (mkPlot "planted" None (cleared (growthTimeout p)))
           (cancel_ref (growthTimeout p) (timers w)) (next_timer w).
Proof.
  intros Hv Hc Hcell Hl Hs. unfold step. simpl. rewrite world_after_fmap.
  unfold api_plant. rewrite Hv. simpl.
  by rewrite (plant_plot_run _ _ _ _ _ Hc Hcell Hl), Hs.
Qed.

Lemma step_water now w row col l p :
  invalid_coordinates (Some row) (Some col) = false → board_closed w →
  cell w row col = Some l → heap w !! l = Some p → state p = "planted" →
  step (PostWater now (Some row) (Some col)) w =
    commit w l (mkPlot "watered" (Some now) (THandle (next_timer w)))
           (mkTimer (next_timer w) GROWTH_TIME_MS (WaterGrowth row col)
              :: cancel_ref (growthTimeout p) (timers w))
           (S (next_timer w)).
Proof.
  intros Hv Hc Hcell Hl Hs. unfold step. simpl. rewrite world_after_fmap.
  unfold api_water. rewrite Hv. simpl.
  by rewrite (water_plot_run _ _ _ _ _ _ Hc Hcell Hl), Hs.
Qed.

Lemma step_harvest w row col l p :
  invalid_coordinates (Some row) (Some col) = false → board_closed w →
  cell w row col = Some l → heap w !! l = Some p → state p = "ready" →
  step (PostHarvest (Some row) (Some col)) w =
    commit w l (mkPlot "empty" None (cleared (growthTimeout p)))
           (cancel_ref (growthTimeout p) (timers w)) (next_timer w).
Proof.
  intros Hv Hc Hcell Hl Hs. unfold step. simpl. rewrite world_after_fmap.
  unfold api_harvest. rewrite Hv. simpl.
  by rewrite (harvest_plot_run _ _ _ _ _ Hc Hcell Hl), Hs.
Qed.

Lemma step_fire w t row col l p :
  board_closed w → pending w (timer_id t) = Some t →
  callback_coords (timer_callback t) = (row, col) →
  cell w row col = Some l → heap w !! l = Some p → state p = "watered" →
  step (TimerFires (timer_id t)) w =
    commit w l
      (mkPlot "ready" (lastWateredTime p)
         (match timer_callback t with
          | WaterGrowth _ _ => TNull
          | ReloadGrowth _ _ => growthTimeout p
          end))
      (cancel (timer_id t) (timers w)) (next_timer w).
Proof.
  intros Hc Hpend Hcb Hcell Hl Hs. unfold step. simpl.
  rewrite (world_after_fmap (fire (timer_id t)) (λ _, None)).
  unfold fire. unfold pending in Hpend. rewrite Hpend.
  set (w1 := with_timers _ _ _).
  rewrite (run_callback_run w1 _ row col l p) by done. by rewrite Hs.
Qed.

Lemma commit_heap_lookup w l p p' ts n :
  heap w !! l = Some p → heap (commit w l p' ts n) !! l = Some p'.
Proof. intros Hl. erewrite commit_lookup by done. by rewrite decide_True. Qed.

Lemma cancel_ref_cleared t ts : cancel_ref (cleared t) ts = ts.
Proof. by destruct t. Qed.

Lemma reloaded_reading b d now r c cells l p w :
  b !! r = Some cells → cells !! c = Some l →
  heap w !! l = Some p → reading b d w → reading b d (reloaded now r c l p w).
Proof.
  intros Hcells Hc' Hl (Hb & Hc & Hst & Hsv & Hnum & Hnd & Hts). unfold reloaded.
  destruct (_ && _); [|done]. simpl. destruct (0 <? _)%Z.
  - split_and!; [done| |done..| | |].
    + eapply board_all_frame; [| |exact Hc]; [done|].
      intros l'. simpl. by apply points_to_insert.
    + unfold timers_numbered. simpl. constructor; [simpl; lia|].
      eapply Forall_impl; [exact Hnum|]. simpl. lia.
    + simpl. constructor; [|done]. intros (t & Hid & Ht)%list_elem_of_fmap.
      pose proof (proj1 (Forall_forall _ _) Hnum t Ht) as Hlt. simpl in Hlt. lia.
    + simpl. constructor; [|done]. by exists r, c, cells, l.
  - split_and!; [done| |done..].
    eapply board_all_frame; [| |exact Hc]; [done|].
    intros l'. simpl. by apply points_to_insert.
Qed.

Lemma reload_reading clock d :
  ∃ w, initStorageAndLoadGameState clock (boot (Some d)) = Normal tt w ∧
       reading (fresh_board 0 d) d w.
Proof.
  rewrite initStorageAndLoadGameState_loaded.
  apply forEach_from_inv; cycle 1.
  { split_and!; [done|apply loaded_closed|done..| | |]; try by constructor. }
  intros r cells Hcells. simpl. apply forEach_from_inv.
  intros c l Hl w Hw. simpl.
  assert (points_to (λ _, True) (heap w) l) as (p & Hp & _)%points_to_alt.
  { destruct Hw as (Hb & Hc & _). unfold board_closed, board_all in Hc. rewrite Hb in Hc.
    eapply Forall_lookup_1 in Hc; [|exact Hcells].
    by eapply Forall_lookup_1 in Hc. }
  exists (reloaded (clock r c) r c l p w). split; [by apply reload_plot_run|].
  by eapply reloaded_reading.
Qed.

Lemma parse_plot_json p : parse_plot (plot_json p) = strip p.
Proof. done. Qed.

Lemma doc_of_lookup w r c p :
  plot_at w (Z.of_nat r) (Z.of_nat c) = Some p →
  ∃ row, doc_of w !! r = Some row ∧ row !! c = Some (plot_json p).
Proof.
  intros (l & (cells & Hcells & Hl)%cell_Some & Hp)%plot_at_Some.
  rewrite index_of_nat in Hcells. rewrite index_of_nat in Hl.
  exists (map (λ l, plot_json (heap w !!! l)) cells). unfold doc_of.
  split.
  - pose proof (list_lookup_fmap (map (λ l, plot_json (heap w !!! l))) (gameBoard w) r) as H.
    rewrite Hcells in H. exact H.
  - pose proof (list_lookup_fmap (λ l, plot_json (heap w !!! l)) cells c) as H.
    rewrite Hl in H. simpl in H. by rewrite (list_lookup_total_correct _ _ _ Hp) in H.
Qed.

Lemma fresh_board_cell {A} (d : list (list A)) n r c cells l :
  fresh_board n d !! r = Some cells → cells !! c = Some l →
  ∃ row j, d !! r = Some row ∧ row !! c = Some j.
Proof.
  intros Hcells Hl.
  destruct (Forall2_lookup_l _ _ _ _ _ (fresh_board_shape n d) Hcells)
    as (row & Hrow & Hlen).
  exists row. destruct (lookup_lt_is_Some_2 row c) as [j Hj]; [|by exists j].
  rewrite <- Hlen. by eapply lookup_lt_Some.
Qed.

Lemma reload_cells clock d w :
  well_timed d →
  initStorageAndLoadGameState clock (boot (Some d)) = Normal tt w →
  ∀ r c cells l,
    fresh_board 0 d !! r = Some cells → cells !! c = Some l →
    cell w (Z.of_nat r) (Z.of_nat c) = Some l ∧
    ∃ p, heap w !! l = Some p ∧ reload_cell w (Z.of_nat r) (Z.of_nat c) p.
Proof.
  intros Hd Hrun r c cells l Hcells Hl.
  destruct (fresh_board_cell d 0 r c cells l Hcells Hl) as (row & j & Hrow & Hj).
  destruct (reload_cell_goal clock d r c row j Hrow Hj)
    as (l' & w' & Hrun' & Hcell & _ & Hgoal).
  rewrite Hrun in Hrun'. injection Hrun' as <-.
  assert (gameBoard w = fresh_board 0 d) as Hb.
  { unfold reload_goal in Hgoal.
    destruct (_ && _); [destruct (0 <? _)%Z|]; by destruct Hgoal as [[? _] _]. }
  assert (l' = l) as ->.
  { apply cell_Some in Hcell as (cells' & Hcells' & Hl').
    rewrite index_of_nat in Hcells'. rewrite index_of_nat in Hl'.
    rewrite Hb in Hcells'. congruence. }
  split; [done|]. unfold reload_goal in Hgoal.
  pose proof (proj1 (Forall_forall _ _) (proj1 (Forall_lookup _ _) Hd r row Hrow) j
                (list_elem_of_lookup_2 _ _ _ Hj)) as Htime.
  change (state (parse_plot j)) with (j_state j) in Hgoal.
  change (lastWateredTime (parse_plot j)) with (j_lastWateredTime j) in Hgoal.
  assert (∀ t, growthTimeout (parse_plot j) ≠ THandle t) as Hno.
  { intros t. simpl. by destruct (j_growthTimeout j). }
  assert (truthy_timeout (growthTimeout (parse_plot j)) = false) as Hfalsy.
  { simpl. by destruct (j_growthTimeout j). }
  destruct (String.eqb (j_state j) "watered") eqn:Hs; simpl in Hgoal; cycle 1.
  { apply String.eqb_neq in Hs. destruct Hgoal as (_ & Hp & Hts).
    eexists. split; [exact Hp|]. right. done. }
  apply String.eqb_eq in Hs. rewrite (Htime Hs) in Hgoal. simpl in Hgoal.
  destruct (0 <? _)%Z.
  - destruct Hgoal as (_ & id & Hp & Hpend & Hts).
    eexists. split; [exact Hp|]. left.
    eexists (mkTimer id _ (ReloadGrowth (Z.of_nat r) (Z.of_nat c))).
    split_and!; [done|done|exact Hpend|done|exact Hts].
  - destruct Hgoal as (_ & Hp & Hts).
    eexists. split; [exact Hp|]. right. done.
Qed.

Lemma reload_consistent clock d w :
  well_timed d →
  initStorageAndLoadGameState clock (boot (Some d)) = Normal tt w →
  timers_consistent w.
Proof.
  intros Hd Hrun.
  destruct (reload_reading clock d) as (w' & Hrun' & Hb & Hc & _ & _ & Hnum & Hnd & Hts).
  rewrite Hrun in Hrun'. injection Hrun' as <-.
  pose proof (reload_cells clock d w Hd Hrun) as Hcells.
  assert (∀ row col p, plot_at w row col = Some p → reload_cell w row col p) as Hat.
  { intros row col p (l & (cells & Hcs & Hl)%cell_Some & Hp)%plot_at_Some.
    apply index_Some in Hcs as [Hrow Hcs]. apply index_Some in Hl as [Hcol Hl].
    rewrite Hb in Hcs.
    destruct (Hcells _ _ _ _ Hcs Hl) as (_ & q & Hq & Hcase).
    rewrite !Z2Nat.id in Hcase by done. congruence. }
  split_and!; [done| |done|done| | |].
  - unfold board_unshared. rewrite Hb. apply (loaded_unshared d).
  - apply Forall_forall. intros t Ht.
    pose proof (proj1 (Forall_forall _ _) Hts t Ht) as (r & c & cells & l & Hcb & Hcs & Hl).
    destruct (Hcells _ _ _ _ Hcs Hl) as (Hcell & p & Hp & Hcase).
    assert (timer_cell t = (Z.of_nat r, Z.of_nat c)) as Htc.
    { unfold timer_cell. by rewrite Hcb. }
    exists p. rewrite Htc. simpl. split; [apply plot_at_Some; eauto|].
    destruct Hcase as [(t0 & Hs & Hg & _ & _ & Hone)|(_ & _ & Hnone)].
    + rewrite (proj1 (Forall_forall _ _) Hone t Ht Htc). done.
    + by destruct (proj1 (Forall_forall _ _) Hnone t Ht).
  - intros row col p id Hp Hg.
    destruct (Hat row col p Hp) as [(t0 & Hs & Hg' & [Hin _]%pending_Some & _)|(Hfalsy & _)].
    + split; [|done]. rewrite Hg in Hg'. injection Hg' as ->.
      exact (proj1 (Forall_forall _ _) Hnum t0 Hin).
    + by rewrite Hg in Hfalsy.
  - intros row col p Hp Hs.
    destruct (Hat row col p Hp) as [(t0 & _ & Hg & [Hin _]%pending_Some & Htc & _)|(_ & Hne & _)].
    + by exists t0.
    + done.
Qed.


Lemma consistent_match w : timers_consistent w → timers_match_plots w.
Proof.
  intros (Hc & Hu & Hnum & Hnd & Hown & Hknown & Harmed).
  split_and!; [done| | |done].
  - intros t Ht. by eapply Forall_forall in Hown.
  - intros t1 t2 H1 H2 Hcell. eapply same_id_same_timer; [done..|].
    pose proof (proj1 (Forall_forall _ _) Hown t1 H1) as (p1 & Hp1 & _ & Hg1).
    pose proof (proj1 (Forall_forall _ _) Hown t2 H2) as (p2 & Hp2 & _ & Hg2).
    rewrite Hcell in Hp1. congruence.
Qed.

Lemma consistent_ripens w row col p :
  timers_consistent w →
  plot_at w row col = Some p → state p = "watered" →
  ∃ id p',
    growthTimeout p = THandle id ∧
    is_Some (pending w id) ∧
    plot_at (step (TimerFires id) w) row col = Some p' ∧
    state p' = "ready" ∧ lastWateredTime p' = lastWateredTime p.
Proof.
  intros (Hc & Hu & Hnum & Hnd & Hown & Hknown & Harmed) Hat Hs.
  destruct (Harmed row col p Hat Hs) as (t & Hin & Hcell & Hg).
  pose proof (pending_member _ _ Hnd Hin) as Hpend.
  apply plot_at_Some in Hat as (l & Hl & Hp).
  exists (timer_id t). eexists (mkPlot "ready" (lastWateredTime p) _).
  split_and!; [done|by rewrite Hpend| |done..].
  unfold step. simpl. rewrite (world_after_fmap (fire (timer_id t)) (λ _, None)).
  unfold fire. unfold pending in Hpend. rewrite Hpend.
  set (w1 := with_timers _ _ _).
  rewrite (run_callback_run w1 _ row col l p) by done.
  rewrite Hs. simpl. apply plot_at_Some. exists l. split; [done|].
  erewrite commit_lookup by done. by rewrite decide_True.
Qed.

Lemma cancel_absent id ts :
  Forall (λ t, timer_id t ≠ id) ts → cancel id ts = ts.
Proof.
  unfold cancel. induction 1 as [|t ts Ht _ IH]; [done|].
  rewrite filter_cons_True by done. by rewrite IH.
Qed.

Lemma pending_None w id :
  Forall (λ t, timer_id t ≠ id) (timers w) → pending w id = None.
Proof.
  intros Hts. unfold pending.
  destruct (List.find _ (timers w)) as [t|] eqn:Hfind; [|done].
  apply find_some in Hfind as [Hin%list_elem_of_In Hid%bool_decide_eq_true].
  by destruct (proj1 (Forall_forall _ _) Hts t Hin).
Qed.

(** ** Lemmas on request bodies of any JSON type *)

Lemma Qltb_lt x y : Qltb x y = true ↔ (x < y)%Q.
Proof.
  unfold Qltb. rewrite negb_true_iff, <- not_true_iff_false, Qle_bool_iff.
  split; [apply Qnot_le_lt | apply Qlt_not_le].
Qed.

Lemma invalid_fields_spec row col :
  invalid_fields row col = true ↔ field_outside row col.
Proof.
  destruct row as [r|], col as [c|]; simpl; try done.
  rewrite !orb_true_iff, !Qltb_lt, !Qle_bool_iff. split.
  - intros H (H1 & H2 & H3 & H4).
    destruct H as [[[H|H]|H]|H].
    + by apply Qlt_not_le in H.
    + by apply Qle_not_lt in H.
    + by apply Qlt_not_le in H.
    + by apply Qle_not_lt in H.
  - intros H.
    destruct (Qlt_le_dec (ToNumber r) 0) as [|H1]; [tauto|].
    destruct (Qlt_le_dec (ToNumber r) (inject_Z ROWS)) as [H2|]; [|tauto].
    destruct (Qlt_le_dec (ToNumber c) 0) as [|H3]; [tauto|].
    destruct (Qlt_le_dec (ToNumber c) (inject_Z COLS)) as [H4|]; [|tauto].
    destruct H. done.
Qed.

Lemma array_index_int z : array_index (JInt z) = Some z.
Proof.
  unfold array_index, JInt. simpl.
  by rewrite Z.mod_1_r, Z.div_1_r.
Qed.

Lemma Qle_bool_int a b : Qle_bool (inject_Z a) (inject_Z b) = (a <=? b)%Z.
Proof. unfold Qle_bool. simpl. by rewrite !Z.mul_1_r. Qed.

Lemma invalid_fields_int row col :
  invalid_fields (JInt <$> row) (JInt <$> col) = invalid_coordinates row col.
Proof.
  destruct row as [r|], col as [c|]; simpl; try done.
  unfold Qltb. change 0%Q with (inject_Z 0). rewrite !Qle_bool_int.
  f_equal; [f_equal; [f_equal|]|].
  - destruct (0 <=? r)%Z eqn:H1, (r <? 0)%Z eqn:H2; simpl; try done; lia.
  - destruct (ROWS <=? r)%Z eqn:H1, (r >=? ROWS)%Z eqn:H2; simpl; try done; lia.
  - destruct (0 <=? c)%Z eqn:H1, (c <? 0)%Z eqn:H2; simpl; try done; lia.
  - destruct (COLS <=? c)%Z eqn:H1, (c >=? COLS)%Z eqn:H2; simpl; try done; lia.
Qed.

Lemma request_integer a now row col w :
  request a now (JInt <$> row) (JInt <$> col) w = api a now row col w.
Proof.
  unfold request. rewrite api_dispatch, invalid_fields_int.
  destruct (invalid_coordinates row col) eqn:Hv; [done|].
  apply invalid_coordinates_false in Hv as (r & c & -> & -> & _).
  unfold fmap, option_fmap, option_map, mbind, option_bind.
  by rewrite !array_index_int.
Qed.

(** * The claims *)



(** C2: when a growth timer fires, whichever handler armed it, the plot
    becomes 'ready' only if it is 'watered' at that moment.  In any other
    state the callback returns normally and nothing changes but the
    pending list, which the fired timeout has left: no plot is touched and
    nothing is written. *)
Theorem growth_timer_guarded w id t row col p :
  board_closed w →
  pending w id = Some t →
  callback_coords (timer_callback t) = (row, col) →
  plot_at w row col = Some p →
  (state p ≠ "watered" →
   fire id w = Normal tt (with_timers (cancel id (timers w)) (next_timer w) w)) ∧
  (state p = "watered" →
   ∃ w' p', fire id w = Normal tt w' ∧
            plot_at w' row col = Some p' ∧ state p' = "ready").
Proof.
  intros Hc Hfind Hcb (l & Hcell & Hl)%plot_at_Some.
  unfold fire. unfold pending in Hfind. rewrite Hfind.
  set (w1 := with_timers (cancel id (timers w)) (next_timer w) w).
  rewrite (run_callback_run w1 _ row col l p) by done.
  split.
  - intros Hs%String.eqb_neq. by rewrite Hs.
  - intros Hs. rewrite Hs. simpl.
    eexists _, (mkPlot "ready" (lastWateredTime p) _).
    split; [done|]. split; [|done].
    apply plot_at_Some. exists l. split; [done|].
    erewrite commit_lookup by done. by rewrite decide_True.
Qed.

Lemma growth_timer_guarded_witness :
  ∃ w' p', fire 0 watered_farm = Normal tt w' ∧
           plot_at w' 0 0 = Some p' ∧ state p' = "ready".
Proof.
  destruct (growth_timer_guarded watered_farm 0 (mkTimer 0 5000 (WaterGrowth 0 0)) 0 0
              (mkPlot "watered" (Some 1000%Z) (THandle 0))) as [_ H].
  - by_compute.
  - vm_compute. reflexivity.
  - reflexivity.
  - vm_compute. reflexivity.
  - apply H. reflexivity.
Defined.

(** C3: for every valid coordinate and every sequence of plant, water and
    harvest calls and timer firings, the state of the plot is one of
    'empty', 'planted', 'watered', 'ready', and the next event either
    leaves it as it is or moves it along an edge of the lifecycle:
    empty to planted by a plant call, planted to watered by a water call,
    watered to ready by a timer firing, ready to empty by a harvest
    call. *)
Theorem plot_state_follows_lifecycle w es row col :
  lifecycle_board w →
  invalid_coordinates (Some row) (Some col) = false →
  ∃ p, plot_at (run es w) row col = Some p ∧
       lifecycle_state (state p) ∧
       ∀ e, ∃ p', plot_at (step e (run es w)) row col = Some p' ∧
                  lifecycle_state (state p') ∧
                  (state p' = state p ∨ edge e (state p) (state p')).
Proof.
  intros Hw Hv.
  pose proof (run_invariant lifecycle_board es w lifecycle_board_step Hw) as [Hsz Hst].
  destruct (sized_cell _ _ _ Hsz Hv) as [l Hcell].
  pose proof (board_all_cell _ _ _ _ _ Hst Hcell) as (p & Hl & Hp)%points_to_alt.
  assert (plot_at (run es w) row col = Some p) as Hat.
  { apply plot_at_Some. eauto. }
  exists p. split_and!; [done..|]. intros e.
  destruct (step_edge e _ _ _ _ (board_all_closed _ _ Hst) Hat) as (p' & Hat' & Hedge).
  exists p'. split_and!; [done| |done].
  destruct Hedge as [->|Hedge]; [done | by eapply edge_lifecycle_state].
Qed.

Lemma plot_state_follows_lifecycle_witness :
  lifecycle_board fresh_farm ∧
  invalid_coordinates (Some 0%Z) (Some 0%Z) = false ∧
  ∃ p, plot_at (run [PostPlant (Some 0%Z) (Some 0%Z)] fresh_farm) 0 0 = Some p ∧
       lifecycle_state (state p) ∧
       ∀ e, ∃ p', plot_at (step e (run [PostPlant (Some 0%Z) (Some 0%Z)] fresh_farm)) 0 0
                    = Some p' ∧
                  lifecycle_state (state p') ∧
                  (state p' = state p ∨ edge e (state p) (state p')).
Proof.
  split; [by_compute|]. split; [reflexivity|].
  apply (plot_state_follows_lifecycle fresh_farm [PostPlant (Some 0%Z) (Some 0%Z)] 0 0).
  - by_compute.
  - reflexivity.
Defined.

(** C4, as the program has it: every plant, water and harvest call and
    every timer firing keeps, for every plot of the board: the state is
    one of the four; lastWateredTime is non-null exactly in the states
    'watered' and 'ready'; a 'watered' plot holds a timer handle; an
    'empty' or 'planted' plot holds none. *)
Theorem plot_invariant_preserved e w :
  board_all plot_invariant w → board_all plot_invariant (step e w).
Proof.
  intros Hw. eapply outcome_board_all; [|exact Hw|].
  - apply step_outcome. by eapply board_all_closed.
  - intros row col p p' ts n. apply lifecycle_plot_invariant.
Qed.

Lemma plot_invariant_preserved_witness :
  board_all plot_invariant watered_farm ∧
  board_all plot_invariant (step (TimerFires 0) watered_farm).
Proof.
  split; [by_compute|].
  apply (plot_invariant_preserved (TimerFires 0) watered_farm). by_compute.
Defined.

(** C4, as the specification states it, fails: when the growth timer of a
    watered plot fires the plot becomes 'ready' and keeps its
    lastWateredTime. *)
Lemma spec_plot_invariant_broken :
  ¬ (∀ e w, board_all spec_plot_invariant w →
            board_all spec_plot_invariant (step e w)).
Proof.
  intros H. specialize (H (TimerFires 0) watered_farm).
  assert (board_all spec_plot_invariant watered_farm) as Hw by by_compute.
  apply H in Hw. revert Hw. by_compute.
Qed.

(** C5: a plant, water or harvest call with valid coordinates whose action
    the rejection table refuses in the state of the plot answers 400 with
    success false and the reason of the table for that action and state,
    and leaves the world as it was: no plot changes, nothing is written
    to the storage. *)
Theorem rejected_action_changes_nothing a now w row col p reason :
  invalid_coordinates (Some row) (Some col) = false →
  board_closed w →
  plot_at w row col = Some p →
  spec_rejection a (state p) = Some reason →
  api a now (Some row) (Some col) w =
    Normal (json_400 (Message false (reason_message reason))) w.
Proof.
  intros Hv Hc (l & Hcell & Hl)%plot_at_Some Hrej.
  rewrite api_dispatch, Hv. simpl.
  destruct a; simpl in *.
  - rewrite (plant_plot_run _ _ _ _ _ Hc Hcell Hl).
    case_decide as Hs; [|done]. injection Hrej as <-.
    destruct Hs as [-> | [-> | ->]]; done.
  - rewrite (water_plot_run _ _ _ _ _ _ Hc Hcell Hl).
    case_decide as Hs.
    + injection Hrej as <-. destruct Hs as [-> | ->]; done.
    + case_decide as Hs'; [|done]. injection Hrej as <-. by rewrite Hs'.
  - rewrite (harvest_plot_run _ _ _ _ _ Hc Hcell Hl).
    case_decide as Hs.
    + injection Hrej as <-. by rewrite Hs.
    + case_decide as Hs'; [|done]. injection Hrej as <-.
      destruct Hs' as [-> | ->]; done.
Qed.

Lemma rejected_action_changes_nothing_witness :
  api Harvest 0 (Some 0%Z) (Some 0%Z) watered_farm =
    Normal (json_400 (Message false "Plant is not ready to harvest yet.")) watered_farm.
Proof.
  apply (rejected_action_changes_nothing Harvest 0 watered_farm 0 0
           (mkPlot "watered" (Some 1000%Z) (THandle 0)) NotReadyYet).
  - reflexivity.
  - by_compute.
  - vm_compute. reflexivity.
  - vm_compute. reflexivity.
Defined.

(** C6: the claim fails on the code.  The check of the three POST
    handlers compares numbers and never asks for an integer: 1.5 is a
    number inside the bounds of the grid, it passes the check, names no
    row of the board, and the lookup throws a TypeError where the claim
    has the request go on to the plot lookup and the dispatch; [null]
    passes the check as the number 0 and throws in the same way, where
    the specification has malformed coordinates reported to the
    caller. *)
Theorem malformed_coordinates_throw a now w :
  request a now (Some (JNumber (3 # 2))) (Some (JInt 0)) w = Throw TypeError w ∧
  request a now (Some JNull) (Some (JInt 0)) w = Throw TypeError w ∧
  ¬ field_outside (Some (JNumber (3 # 2))) (Some (JInt 0)).
Proof.
  split_and!; [done..|].
  rewrite <- invalid_fields_spec. done.
Qed.

(** C7: a water call on a planted plot succeeds.  The plot becomes
    'watered' with lastWateredTime the current time; the timeout the plot
    held is cancelled and one new timeout of GROWTH_TIME_MS is armed for
    the plot, whose handle the plot keeps; the document in the storage is
    the board as the handler leaves it; and the message names the growth
    time in seconds. *)
Theorem water_planted_plot now w row col p :
  invalid_coordinates (Some row) (Some col) = false →
  board_closed w →
  plot_at w row col = Some p →
  state p = "planted" →
  ∃ msg w',
    api_water now (Some row) (Some col) w = Normal (json (Message true msg)) w' ∧
    plot_at w' row col =
      Some (mkPlot "watered" (Some now) (THandle (next_timer w))) ∧
    timers w' =
      mkTimer (next_timer w) GROWTH_TIME_MS (WaterGrowth row col)
        :: cancel_ref (growthTimeout p) (timers w) ∧
    (∀ id, growthTimeout p = THandle id →
           Forall (λ t, timer_id t ≠ id) (cancel_ref (growthTimeout p) (timers w))) ∧
    next_timer w' = S (next_timer w) ∧
    stored w' = Some (doc_of w') ∧
    saves w' = S (saves w) ∧
    includes (pretty (GROWTH_TIME_MS / 1000)%Z +:+ " seconds") msg ∧
    (GROWTH_TIME_MS / 1000 * 1000)%Z = GROWTH_TIME_MS.
Proof.
  intros Hv Hc (l & Hcell & Hl)%plot_at_Some Hs.
  unfold api_water. rewrite Hv. simpl.
  rewrite (water_plot_run _ _ _ _ _ _ Hc Hcell Hl), Hs. simpl.
  eexists _, _. split; [done|].
  pose proof (commit_closed w l p (mkPlot "watered" (Some now) (THandle (next_timer w)))
    (mkTimer (next_timer w) GROWTH_TIME_MS (WaterGrowth row col)
       :: cancel_ref (growthTimeout p) (timers w)) (S (next_timer w)) Hc Hl) as Hc'.
  split_and!; try done.
  - apply plot_at_Some. exists l. split; [done|].
    erewrite commit_lookup by done. by rewrite decide_True.
  - intros id ->. simpl. unfold cancel. apply Forall_forall.
    by intros t [? _]%list_elem_of_filter.
  - unfold commit. by rewrite doc_of_saved.
  - exists ("Plant at (" +:+ pretty row +:+ ", " +:+ pretty col
            +:+ ") watered. It will be ready in "), ".".
    unfold water_message. change " seconds." with (" seconds" +:+ ".").
    by rewrite !append_assoc.
Qed.

Lemma water_planted_plot_witness :
  ∃ msg w',
    api_water 1000 (Some 0%Z) (Some 0%Z)
      (step (PostPlant (Some 0%Z) (Some 0%Z)) fresh_farm)
      = Normal (json (Message true msg)) w' ∧
    plot_at w' 0 0 = Some (mkPlot "watered" (Some 1000%Z) (THandle 0)) ∧
    timers w' = [mkTimer 0 5000 (WaterGrowth 0 0)] ∧
    includes "5 seconds" msg.
Proof.
  destruct (water_planted_plot 1000 (step (PostPlant (Some 0%Z) (Some 0%Z)) fresh_farm)
              0 0 (mkPlot "planted" None TNull))
    as (msg & w' & Hrun & Hplot & Htimers & _ & _ & _ & _ & Hmsg & _).
  - reflexivity.
  - by_compute.
  - vm_compute. reflexivity.
  - reflexivity.
  - exists msg, w'. split_and!; [exact Hrun | exact Hplot | exact Htimers | exact Hmsg].
Defined.

(** C8: with no document in the storage, start-up builds a board of ROWS
    rows of COLS plots, each a plot object of its own in state 'empty'
    with lastWateredTime null and growthTimeout null, arms no timer, and
    saves that board at once: the storage then holds the all-empty
    document, written by the one call of setItem. *)
Theorem first_run_builds_empty_board clock :
  ∃ w, initStorageAndLoadGameState clock (boot None) = Normal tt w ∧
       board_sized w ∧
       board_unshared w ∧
       board_all (λ p, p = mkPlot "empty" None TNull) w ∧
       timers w = [] ∧
       stored w = Some (doc_of w) ∧
       doc_of w = replicate (Z.to_nat ROWS)
                    (replicate (Z.to_nat COLS) (mkPlotJson "empty" None false)) ∧
       saves w = 1.
Proof.
  eexists. split; [vm_compute; reflexivity|].
  split_and!; [by_compute | by_compute | by_compute | done | | |done];
    vm_compute; reflexivity.
Qed.

(** C9: the board query on a board whose cells all hold plots returns
    normally.  It changes no plot object of the store, nor the board, the
    timers or the storage; what it returns is, cell by cell, a new object
    with the state and the watering time of the plot and no timer handle,
    serialized without a growthTimeout key; and assigning to an object of
    the returned board leaves every plot of the live board as it was. *)
Theorem game_state_is_a_copy w :
  board_closed w →
  ∃ copy w',
    responseBoard w = Normal copy w' ∧
    api_game_state w = Normal (json (Board (doc_of w))) w' ∧
    gameBoard w' = gameBoard w ∧ timers w' = timers w ∧
    next_timer w' = next_timer w ∧ stored w' = stored w ∧ saves w' = saves w ∧
    (∀ l p, heap w !! l = Some p → heap w' !! l = Some p) ∧
    Forall2 (Forall2 (λ l' l, ∃ p,
               heap w !! l = Some p ∧
               heap w' !! l' = Some (mkPlot (state p) (lastWateredTime p) TUndefined) ∧
               heap w !! l' = None))
            copy (gameBoard w) ∧
    Forall2 (Forall2 (λ j l, ∃ p,
               heap w !! l = Some p ∧
               j = mkPlotJson (state p) (lastWateredTime p) false))
            (doc_of w) (gameBoard w) ∧
    ∀ l' q row col,
      l' ∈ concat copy →
      plot_at (with_heap (<[l' := q]> (heap w')) w') row col = plot_at w row col.
Proof.
  intros Hc.
  exists (fresh_board (length (heap w)) (gameBoard w)),
         (with_heap (heap w ++ copies_of w) w).
  split_and!; try done.
  - by apply responseBoard_normal.
  - by apply api_game_state_normal.
  - intros l p Hl. simpl. by apply lookup_app_l_Some.
  - apply Forall2_same_length_lookup_2.
    { by eapply Forall2_length, fresh_board_shape. }
    intros r cells' cells Hcells' Hcells.
    pose proof (copies_are_copies w) as Hcopies.
    eapply Forall2_lookup_lr in Hcopies; [|done..].
    eapply Forall_lookup_1 in Hc; [|exact Hcells].
    apply Forall2_same_length_lookup_2; [by eapply Forall2_length|].
    intros c l' l Hl' Hl.
    eapply Forall2_lookup_lr in Hcopies as [Hge Hcopy]; [|done..].
    eapply Forall_lookup_1 in Hc as (p & Hp & _)%points_to_alt; [|exact Hl].
    exists p. rewrite (list_lookup_total_correct _ _ _ Hp) in Hcopy.
    split_and!; [done..|]. by apply lookup_ge_None.
  - unfold doc_of. apply Forall2_fmap_l, Forall_Forall2_diag.
    eapply Forall_impl; [exact Hc|]. intros cells Hcells.
    apply Forall2_fmap_l, Forall_Forall2_diag.
    eapply Forall_impl; [exact Hcells|]. intros l (p & Hp & _)%points_to_alt.
    exists p. by rewrite (list_lookup_total_correct _ _ _ Hp).
  - intros l' q row col Hin. unfold plot_at. simpl.
    change (cell (with_heap _ _) row col) with (cell w row col).
    destruct (cell w row col) as [l|] eqn:Hcell; [simpl|done].
    pose proof (board_all_cell _ _ _ _ _ Hc Hcell) as (p & Hp & _)%points_to_alt.
    assert (length (heap w) ≤ l') as Hge.
    { rewrite fresh_board_concat in Hin.
      apply list_elem_of_In, in_seq in Hin. lia. }
    apply lookup_lt_Some in Hp as Hlt.
    rewrite list_lookup_insert_ne by lia. by rewrite lookup_app_l.
Qed.

Lemma game_state_is_a_copy_witness :
  ∃ copy w',
    responseBoard watered_farm = Normal copy w' ∧
    api_game_state watered_farm = Normal (json (Board (doc_of watered_farm))) w' ∧
    gameBoard w' = gameBoard watered_farm ∧
    stored w' = stored watered_farm ∧
    ∀ l' q, l' ∈ concat copy →
            plot_at (with_heap (<[l' := q]> (heap w')) w') 0 0 = plot_at watered_farm 0 0.
Proof.
  destruct (game_state_is_a_copy watered_farm)
    as (copy & w' & Hcopy & Hres & Hboard & _ & _ & Hstored & _ & _ & _ & _ & H).
  - by_compute.
  - exists copy, w'.
    split_and!; [exact Hcopy | exact Hres | exact Hboard | exact Hstored |].
    intros l' q. apply H.
Defined.

(** C10: start-up on a stored document, for a stored plot in state
    'watered' whose lastWateredTime is null or otherwise falsy.  The
    reload leaves the plot as it was stored and arms no timer for it, and
    from then on the plot is 'watered' after every sequence of timer
    firings and requests: it never becomes 'ready'. *)
Theorem reload_skips_plot_without_time clock d r c row j :
  d !! r = Some row → row !! c = Some j →
  j_state j = "watered" → truthy_time (j_lastWateredTime j) = false →
  ∃ w,
    initStorageAndLoadGameState clock (boot (Some d)) = Normal tt w ∧
    plot_at w (Z.of_nat r) (Z.of_nat c) = Some (parse_plot j) ∧
    truthy_timeout (growthTimeout (parse_plot j)) = false ∧
    Forall (λ tm, callback_coords (timer_callback tm) ≠ (Z.of_nat r, Z.of_nat c))
           (timers w) ∧
    ∀ es, ∃ p, plot_at (run es w) (Z.of_nat r) (Z.of_nat c) = Some p ∧
               state p = "watered".
Proof.
  intros Hrow Hj Hs Ht.
  destruct (reload_cell_goal clock d r c row j Hrow Hj) as (l & w & Hrun & Hcell & Hu & Hgoal).
  unfold reload_goal in Hgoal. simpl in Hgoal. rewrite Hs, Ht in Hgoal. simpl in Hgoal.
  destruct Hgoal as ((_ & Hc & _) & Hp & Hts).
  assert (plot_at w (Z.of_nat r) (Z.of_nat c) = Some (parse_plot j)) as Hat.
  { apply plot_at_Some. eauto. }
  exists w. split_and!; [done..| simpl; by destruct (j_growthTimeout j) |done|].
  intros es.
  destruct (run_invariant (stuck (Z.of_nat r) (Z.of_nat c)) es w) as (_ & _ & H & _).
  - intros e w'. apply stuck_step.
  - split_and!; [done..| |done]. exists (parse_plot j). by split.
  - done.
Qed.

Lemma reload_skips_plot_without_time_witness :
  ∃ w,
    initStorageAndLoadGameState (λ _ _, 7000%Z) (boot (Some sample_doc)) = Normal tt w ∧
    plot_at w 0 2 = Some (mkPlot "watered" None TUndefined) ∧
    ∃ p, plot_at (run [TimerFires 0; PostWater 8000 (Some 0%Z) (Some 2%Z)] w) 0 2 = Some p ∧
         state p = "watered".
Proof.
  destruct (reload_skips_plot_without_time (λ _ _, 7000%Z) sample_doc 0 2
              [mkPlotJson "watered" (Some 1000%Z) false;
               mkPlotJson "watered" (Some 4000%Z) false;
               mkPlotJson "watered" None false]
              (mkPlotJson "watered" None false))
    as (w & Hrun & Hat & _ & _ & Hes);
    [reflexivity | reflexivity | reflexivity | reflexivity |].
  exists w. split; [exact Hrun|]. split; [exact Hat|]. apply Hes.
Defined.

(** * Further properties *)

(** X1: POST /api/plant on an empty plot at valid coordinates answers 200
    with success true and the message "Seed planted at (row, col).";
    the plot becomes 'planted' with lastWateredTime null and no timer
    handle, every other plot is as before, the plot's previous timeout (if
    it held one) is cleared and no timeout is created, and the board is
    written to the storage once, as the handler leaves it. *)
Theorem plant_empty_plot w row col p :
  invalid_coordinates (Some row) (Some col) = false →
  board_closed w → board_unshared w →
  plot_at w row col = Some p → state p = "empty" →
  ∃ w',
    api_plant (Some row) (Some col) w =
      Normal (json (Message true
                ("Seed planted at (" +:+ pretty row +:+ ", " +:+ pretty col +:+ ").")))
             w' ∧
    (∃ t, plot_at w' row col = Some (mkPlot "planted" None t) ∧
          truthy_timeout t = false) ∧
    (∀ r c, (r, c) ≠ (row, col) → plot_at w' r c = plot_at w r c) ∧
    timers w' = cancel_ref (growthTimeout p) (timers w) ∧
    stored w' = Some (doc_of w') ∧ saves w' = S (saves w).
Proof.
  intros Hv Hc Hu (l & Hcell & Hl)%plot_at_Some Hs.
  unfold api_plant. rewrite Hv. simpl.
  rewrite (plant_plot_run _ _ _ _ _ Hc Hcell Hl), Hs. simpl.
  eexists. split; [done|]. split_and!.
  - exists (cleared (growthTimeout p)). split; [|by destruct (growthTimeout p)].
    rewrite (plot_at_commit _ row col) by done. by rewrite decide_True.
  - intros r c Hne. rewrite (plot_at_commit _ row col) by done. by rewrite decide_False.
  - done.
  - by eapply commit_stored.
  - done.
Qed.

Lemma plant_empty_plot_witness :
  ∃ w', api_plant (Some 0%Z) (Some 0%Z) fresh_farm
          = Normal (json (Message true "Seed planted at (0, 0).")) w' ∧
        plot_at w' 1 1 = plot_at fresh_farm 1 1 ∧
        saves w' = S (saves fresh_farm).
Proof.
  destruct (plant_empty_plot fresh_farm 0 0 (mkPlot "empty" None TNull))
    as (w' & Hrun & _ & Hothers & _ & _ & Hsaves).
  - reflexivity.
  - by_compute.
  - by_compute.
  - vm_compute. reflexivity.
  - reflexivity.
  - exists w'. split_and!; [exact Hrun | by apply Hothers | exact Hsaves].
Defined.

(** X2: POST /api/harvest on a ready plot at valid coordinates answers 200
    with success true and the message "Plant at (row, col) harvested.";
    the plot becomes 'empty' with lastWateredTime null and no timer
    handle, every other plot is as before, the plot's timeout (if it still
    held one) is cleared, and the board is written to the storage once, as
    the handler leaves it. *)
Theorem harvest_ready_plot w row col p :
  invalid_coordinates (Some row) (Some col) = false →
  board_closed w → board_unshared w →
  plot_at w row col = Some p → state p = "ready" →
  ∃ w',
    api_harvest (Some row) (Some col) w =
      Normal (json (Message true
                ("Plant at (" +:+ pretty row +:+ ", " +:+ pretty col +:+ ") harvested.")))
             w' ∧
    (∃ t, plot_at w' row col = Some (mkPlot "empty" None t) ∧
          truthy_timeout t = false) ∧
    (∀ r c, (r, c) ≠ (row, col) → plot_at w' r c = plot_at w r c) ∧
    timers w' = cancel_ref (growthTimeout p) (timers w) ∧
    stored w' = Some (doc_of w') ∧ saves w' = S (saves w).
Proof.
  intros Hv Hc Hu (l & Hcell & Hl)%plot_at_Some Hs.
  unfold api_harvest. rewrite Hv. simpl.
  rewrite (harvest_plot_run _ _ _ _ _ Hc Hcell Hl), Hs. simpl.
  eexists. split; [done|]. split_and!.
  - exists (cleared (growthTimeout p)). split; [|by destruct (growthTimeout p)].
    rewrite (plot_at_commit _ row col) by done. by rewrite decide_True.
  - intros r c Hne. rewrite (plot_at_commit _ row col) by done. by rewrite decide_False.
  - done.
  - by eapply commit_stored.
  - done.
Qed.

Lemma harvest_ready_plot_witness :
  ∃ w', api_harvest (Some 0%Z) (Some 0%Z) (step (TimerFires 0) watered_farm)
          = Normal (json (Message true "Plant at (0, 0) harvested.")) w' ∧
        timers w' = [].
Proof.
  destruct (harvest_ready_plot (step (TimerFires 0) watered_farm) 0 0
              (mkPlot "ready" (Some 1000%Z) TNull))
    as (w' & Hrun & _ & _ & Htimers & _).
  - reflexivity.
  - by_compute.
  - by_compute.
  - vm_compute. reflexivity.
  - reflexivity.
  - exists w'. split; [exact Hrun | exact Htimers].
Defined.

(** X3: an event changes no plot but its own: after a request or a timer
    firing every plot at a cell other than the cell of the event (the
    coordinates of a request that passes the check, the cell of the
    callback of a pending timeout) is as it was, field for field. *)
Theorem event_touches_one_cell e w row col :
  board_closed w → board_unshared w →
  event_cell e w ≠ Some (row, col) →
  plot_at (step e w) row col = plot_at w row col.
Proof.
  intros Hc Hu Hne.
  destruct (step_effect e w Hc) as [g|t _ _ _|row' col' l p p' ts n Hev Hcell Hl Hlife].
  - by apply plot_at_app.
  - done.
  - rewrite (plot_at_commit _ row' col') by done.
    rewrite decide_False; [done|]. intros [= -> ->]. done.
Qed.

Lemma event_touches_one_cell_witness :
  plot_at (step (PostPlant (Some 0%Z) (Some 0%Z)) fresh_farm) 1 1
    = plot_at fresh_farm 1 1.
Proof.
  apply (event_touches_one_cell (PostPlant (Some 0%Z) (Some 0%Z)) fresh_farm 1 1).
  - by_compute.
  - by_compute.
  - simpl. discriminate.
Defined.

(** X4: once the storage holds the board, it holds the board after every
    sequence of events: what [saveGameBoard] last wrote is the document
    that GET /api/game-state returns. *)
Theorem storage_follows_board es w :
  storage_current w →
  storage_current (run es w) ∧
  ∃ w', api_game_state (run es w) = Normal (json (Board (doc_of (run es w)))) w' ∧
        stored (run es w) = Some (doc_of (run es w)).
Proof.
  intros Hw.
  pose proof (run_invariant storage_current es w storage_current_step Hw) as [Hc Hst].
  split; [done|]. eexists. split; [by apply api_game_state_normal | done].
Qed.

Lemma storage_follows_board_witness :
  stored watered_farm = Some (doc_of watered_farm).
Proof.
  destruct (storage_follows_board
              [PostPlant (Some 0%Z) (Some 0%Z); PostWater 1000 (Some 0%Z) (Some 0%Z)]
              fresh_farm) as [[_ H] _].
  - split; [by_compute | vm_compute; reflexivity].
  - exact H.
Defined.

(** X5: an event either leaves every plot, the board and the storage as
    they were and writes nothing, or moves the plot at its cell along one
    edge of the lifecycle and writes the board to the storage exactly
    once: every change of a plot is saved, and nothing else is. *)
Theorem event_saves_what_it_changes e w :
  board_closed w → board_unshared w →
  (saves (step e w) = saves w ∧ stored (step e w) = stored w ∧
   gameBoard (step e w) = gameBoard w ∧
   ∀ row col, plot_at (step e w) row col = plot_at w row col)
  ∨
  (∃ row col p p',
     event_cell e w = Some (row, col) ∧
     plot_at w row col = Some p ∧ plot_at (step e w) row col = Some p' ∧
     edge e (state p) (state p') ∧
     saves (step e w) = S (saves w) ∧
     stored (step e w) = Some (doc_of (step e w))).
Proof.
  intros Hc Hu.
  destruct (step_effect e w Hc) as [g|t _ _ _|row col l p p' ts n Hev Hcell Hl Hlife].
  - left. split_and!; [done..|]. intros row col. by apply plot_at_app.
  - by left.
  - right. exists row, col, p, p'. split_and!.
    + done.
    + apply plot_at_Some; eauto.
    + rewrite (plot_at_commit _ row col) by done. by rewrite decide_True.
    + by eapply lifecycle_edge.
    + done.
    + by eapply commit_stored.
Qed.

Lemma event_saves_what_it_changes_witness :
  saves (step (PostHarvest (Some 0%Z) (Some 0%Z)) watered_farm) = saves watered_farm.
Proof.
  destruct (event_saves_what_it_changes (PostHarvest (Some 0%Z) (Some 0%Z)) watered_farm)
    as [(H & _)|(row & col & p & p' & _ & _ & _ & _ & H & _)].
  - by_compute.
  - by_compute.
  - exact H.
  - vm_compute in H. discriminate H.
Defined.

(** X6: from a board at rest (no pending timeout, no watered plot, no
    handle on a plot), after every sequence of events the pending timeouts
    and the watered plots are matched one to one: each pending timeout is
    for a watered plot that holds its handle, no cell has two pending
    timeouts, and every watered plot holds the handle of a pending
    timeout for its cell. *)
Theorem pending_timers_match_watered_plots es w :
  quiet w → timers_match_plots (run es w).
Proof.
  intros Hq%quiet_consistent. apply consistent_match.
  exact (run_invariant timers_consistent es w timers_consistent_step Hq).
Qed.

Lemma pending_timers_match_watered_plots_witness :
  quiet fresh_farm ∧ timers_match_plots watered_farm.
Proof.
  split; [by_compute|].
  apply (pending_timers_match_watered_plots
           [PostPlant (Some 0%Z) (Some 0%Z); PostWater 1000 (Some 0%Z) (Some 0%Z)]
           fresh_farm).
  by_compute.
Defined.

(** X7: from a board at rest, after every sequence of events a watered
    plot holds the handle of a timeout that is still pending, and when
    that timeout fires the plot becomes 'ready' and keeps its
    lastWateredTime: no watered plot is left without its growth
    timer. *)
Theorem watered_plot_ripens es w row col p :
  quiet w →
  plot_at (run es w) row col = Some p → state p = "watered" →
  ∃ id p',
    growthTimeout p = THandle id ∧
    is_Some (pending (run es w) id) ∧
    plot_at (step (TimerFires id) (run es w)) row col = Some p' ∧
    state p' = "ready" ∧ lastWateredTime p' = lastWateredTime p.
Proof.
  intros Hq%quiet_consistent. apply consistent_ripens.
  exact (run_invariant timers_consistent es w timers_consistent_step Hq).
Qed.

Lemma watered_plot_ripens_witness :
  ∃ p', plot_at (step (TimerFires 0) watered_farm) 0 0 = Some p' ∧ state p' = "ready".
Proof.
  destruct (watered_plot_ripens
              [PostPlant (Some 0%Z) (Some 0%Z); PostWater 1000 (Some 0%Z) (Some 0%Z)]
              fresh_farm 0 0 (mkPlot "watered" (Some 1000%Z) (THandle 0)))
    as (id & p' & [= <-] & _ & Hat & Hs & _).
  - by_compute.
  - vm_compute. reflexivity.
  - reflexivity.
  - exists p'. split; [exact Hat | exact Hs].
Defined.

(** X8: the coordinate check compares with ROWS and COLS, not with the
    board: when integer coordinates that pass the check name no cell of
    the board (a stored board smaller than ROWS x COLS), the handler
    throws a TypeError at [gameBoard[row][col]] or at [plot.state], before
    it has changed a plot, a timer or the storage and before it has
    called [res.json]; when they name a cell, the handler returns with a
    response. *)
Theorem request_off_board_throws a now w row col :
  invalid_coordinates (Some row) (Some col) = false →
  board_closed w →
  (cell w row col = None →
   api a now (Some row) (Some col) w = Throw TypeError w) ∧
  (is_Some (cell w row col) →
   is_Some (response (api a now (Some row) (Some col) w))).
Proof.
  intros Hv Hc. rewrite api_dispatch, Hv. simpl. split.
  - intros Hcell. destruct a; simpl.
    + unfold plant_plot. by rewrite gameBoard_at_throw.
    + unfold water_plot. by rewrite gameBoard_at_throw.
    + unfold harvest_plot. by rewrite gameBoard_at_throw.
  - intros [l Hcell].
    pose proof (board_all_cell _ _ _ _ _ Hc Hcell) as (p & Hl & _)%points_to_alt.
    by eapply dispatch_normal.
Qed.

Lemma request_off_board_throws_witness :
  api Plant 0 (Some 3%Z) (Some 0%Z) reloaded_farm = Throw TypeError reloaded_farm.
Proof.
  apply (request_off_board_throws Plant 0 reloaded_farm 3 0).
  - reflexivity.
  - by_compute.
  - vm_compute. reflexivity.
Defined.

(** X9: plant, water, the firing of the timer that water armed, and
    harvest, in this order on an empty plot, bring the plot back to
    'empty' with lastWateredTime null and growthTimeout null; every other
    plot is as before, no timeout is left over from the cycle, and the
    board was written to the storage four times, the last time as it
    is. *)
Theorem plot_full_cycle now w row col p :
  invalid_coordinates (Some row) (Some col) = false →
  board_closed w → board_unshared w →
  plot_at w row col = Some p → state p = "empty" →
  let w' := run [PostPlant (Some row) (Some col);
                 PostWater now (Some row) (Some col);
                 TimerFires (next_timer w);
                 PostHarvest (Some row) (Some col)] w in
  plot_at w' row col = Some (mkPlot "empty" None TNull) ∧
  (∀ r c, (r, c) ≠ (row, col) → plot_at w' r c = plot_at w r c) ∧
  timers w' ⊆ timers w ∧
  saves w' = 4 + saves w ∧
  stored w' = Some (doc_of w').
Proof.
  intros Hv Hc Hu (l & Hcell & Hl)%plot_at_Some Hs. simpl.
  unfold run. simpl.
  rewrite (step_plant w row col l p) by done.
  set (w1 := commit w l _ _ _).
  assert (board_closed w1) as Hc1 by by eapply commit_board_closed.
  assert (heap w1 !! l = Some (mkPlot "planted" None (cleared (growthTimeout p)))) as Hl1
    by by eapply commit_heap_lookup.
  rewrite (step_water now w1 row col l _ Hv Hc1 Hcell Hl1 eq_refl).
  set (w2 := commit w1 l _ _ _).
  assert (board_closed w2) as Hc2 by by eapply commit_board_closed.
  assert (heap w2 !! l = Some (mkPlot "watered" (Some now) (THandle (next_timer w)))) as Hl2
    by by eapply commit_heap_lookup.
  assert (pending w2 (next_timer w) =
          Some (mkTimer (next_timer w) GROWTH_TIME_MS (WaterGrowth row col))) as Hpend.
  { unfold pending. simpl. by rewrite bool_decide_eq_true_2. }
  pose proof (step_fire w2 (mkTimer (next_timer w) GROWTH_TIME_MS (WaterGrowth row col))
                row col l _ Hc2 Hpend eq_refl Hcell Hl2 eq_refl) as Hfire.
  cbn [timer_id timer_callback lastWateredTime] in Hfire. rewrite Hfire.
  set (w3 := commit w2 l _ _ _).
  assert (board_closed w3) as Hc3 by by eapply commit_board_closed.
  assert (heap w3 !! l = Some (mkPlot "ready" (Some now) TNull)) as Hl3
    by by eapply commit_heap_lookup.
  rewrite (step_harvest w3 row col l _ Hv Hc3 Hcell Hl3 eq_refl).
  split_and!.
  - rewrite (plot_at_commit w3 row col) by done. by rewrite decide_True.
  - intros r c Hne.
    rewrite (plot_at_commit w3 row col), decide_False by done. unfold w3.
    rewrite (plot_at_commit w2 row col), decide_False by done. unfold w2.
    rewrite (plot_at_commit w1 row col), decide_False by done. unfold w1.
    by rewrite (plot_at_commit w row col), decide_False by done.
  - simpl. intros t [Hid Ht]%cancel_elem.
    apply elem_of_cons in Ht as [->|Ht]; [done|].
    rewrite cancel_ref_cleared in Ht. by apply cancel_ref_subseteq in Ht.
  - done.
  - by eapply commit_stored.
Qed.

Lemma plot_full_cycle_witness :
  plot_at (run [PostPlant (Some 0%Z) (Some 0%Z); PostWater 1000 (Some 0%Z) (Some 0%Z);
                TimerFires (next_timer fresh_farm); PostHarvest (Some 0%Z) (Some 0%Z)]
             fresh_farm) 0 0
    = Some (mkPlot "empty" None TNull).
Proof.
  destruct (plot_full_cycle 1000 fresh_farm 0 0 (mkPlot "empty" None TNull)) as [H _].
  - reflexivity.
  - by_compute.
  - by_compute.
  - vm_compute. reflexivity.
  - reflexivity.
  - exact H.
Defined.

(** X10: start-up on a stored document returns normally and never writes
    to the storage (a plot it completes on load is 'ready' in memory
    only, until the next save); the board has the shape of the document,
    each cell a plot object of its own; and every plot that is not stored
    as 'watered' is loaded with the stored state and lastWateredTime,
    without a growthTimeout property, and no timer is armed for its
    cell. *)
Theorem startup_reads_without_writing clock d :
  ∃ w,
    initStorageAndLoadGameState clock (boot (Some d)) = Normal tt w ∧
    stored w = Some d ∧ saves w = 0 ∧
    Forall2 (λ cells row, length cells = length row) (gameBoard w) d ∧
    board_closed w ∧ board_unshared w ∧
    ∀ r c row j,
      d !! r = Some row → row !! c = Some j → j_state j ≠ "watered" →
      plot_at w (Z.of_nat r) (Z.of_nat c) = Some (parse_plot j) ∧
      Forall (λ t, timer_cell t ≠ (Z.of_nat r, Z.of_nat c)) (timers w).
Proof.
  destruct (reload_reading clock d) as (w & Hrun & Hb & Hc & Hst & Hsv & _).
  exists w. split_and!; [done..| | | |].
  - rewrite Hb. apply fresh_board_shape.
  - done.
  - unfold board_unshared. rewrite Hb. apply (loaded_unshared d).
  - intros r c row j Hrow Hj Hs.
    destruct (reload_cell_goal clock d r c row j Hrow Hj) as (l & w' & Hrun' & Hcell & _ & Hgoal).
    rewrite Hrun in Hrun'. injection Hrun' as <-.
    unfold reload_goal in Hgoal. simpl in Hgoal.
    apply String.eqb_neq in Hs. rewrite Hs in Hgoal. simpl in Hgoal.
    destruct Hgoal as (_ & Hp & Hts). split; [apply plot_at_Some; eauto|done].
Qed.

Lemma startup_reads_without_writing_witness :
  ∃ w,
    initStorageAndLoadGameState (λ _ _, 0%Z)
      (boot (Some [[mkPlotJson "planted" None false]])) = Normal tt w ∧
    saves w = 0 ∧
    plot_at w 0 0 = Some (mkPlot "planted" None TUndefined).
Proof.
  destruct (startup_reads_without_writing (λ _ _, 0%Z)
              [[mkPlotJson "planted" None false]])
    as (w & Hrun & _ & Hsaves & _ & _ & _ & H).
  destruct (H 0 0 [mkPlotJson "planted" None false] (mkPlotJson "planted" None false))
    as [Hat _]; [reflexivity | reflexivity | discriminate |].
  exists w. split_and!; [exact Hrun | exact Hsaves | exact Hat].
Defined.

(** X11: a restart restores what was saved.  When the storage holds the
    board, start-up on it gives a board of the same shape where a plot
    that was not watered (or watered without a truthy lastWateredTime)
    has its state and lastWateredTime back, without a handle and without
    a timer; a plot watered less than GROWTH_TIME_MS ago is 'watered' with
    a pending timer, the only one for its cell, for the remaining time,
    or for 1 ms where the remaining time is beyond what a Node timer
    takes (the clock is far behind the stored timestamp); and a plot
    watered earlier is 'ready'. *)
Theorem restart_restores_board clock w r c p :
  storage_current w →
  plot_at w (Z.of_nat r) (Z.of_nat c) = Some p →
  ∃ w',
    initStorageAndLoadGameState clock (boot (stored w)) = Normal tt w' ∧
    Forall2 (λ cells' cells, length cells' = length cells)
            (gameBoard w') (gameBoard w) ∧
    if String.eqb (state p) "watered" && truthy_time (lastWateredTime p) then
      let remaining :=
        (GROWTH_TIME_MS - (clock r c - to_number (lastWateredTime p)))%Z in
      if (0 <? remaining)%Z then
        ∃ id,
          plot_at w' (Z.of_nat r) (Z.of_nat c)
            = Some (mkPlot "watered" (lastWateredTime p) (THandle id)) ∧
          pending w' id
            = Some (mkTimer id (if (remaining <=? TIMEOUT_MAX)%Z then remaining else 1%Z)
                            (ReloadGrowth (Z.of_nat r) (Z.of_nat c))) ∧
          Forall (λ t, timer_cell t = (Z.of_nat r, Z.of_nat c) → timer_id t = id)
                 (timers w')
      else
        plot_at w' (Z.of_nat r) (Z.of_nat c)
          = Some (mkPlot "ready" (lastWateredTime p) TUndefined) ∧
        Forall (λ t, timer_cell t ≠ (Z.of_nat r, Z.of_nat c)) (timers w')
    else
      plot_at w' (Z.of_nat r) (Z.of_nat c) = Some (strip p) ∧
      Forall (λ t, timer_cell t ≠ (Z.of_nat r, Z.of_nat c)) (timers w').
Proof.
  intros [Hc Hst] Hp. rewrite Hst.
  destruct (doc_of_lookup w r c p Hp) as (row & Hrow & Hj).
  destruct (reload_cell_goal clock (doc_of w) r c row _ Hrow Hj)
    as (l & w' & Hrun & Hcell & _ & Hgoal).
  destruct (reload_reading clock (doc_of w)) as (w'' & Hrun' & Hb & _).
  rewrite Hrun in Hrun'. injection Hrun' as <-.
  exists w'. split; [done|]. split.
  { rewrite Hb. pose proof (fresh_board_shape 0 (doc_of w)) as Hshape.
    unfold doc_of in Hshape at 2. apply Forall2_fmap_r in Hshape.
    eapply Forall2_impl; [exact Hshape|]. simpl. intros cells' cells ->.
    apply length_fmap. }
  rewrite parse_plot_json in Hgoal. unfold reload_goal in Hgoal.
  change (state (strip p)) with (state p) in Hgoal.
  change (lastWateredTime (strip p)) with (lastWateredTime p) in Hgoal.
  destruct (String.eqb (state p) "watered") eqn:Hs; simpl in Hgoal |- *; cycle 1.
  { destruct Hgoal as (_ & Hl & Hts). split; [apply plot_at_Some; eauto|done]. }
  apply String.eqb_eq in Hs.
  destruct (truthy_time (lastWateredTime p)); simpl in Hgoal |- *; cycle 1.
  { destruct Hgoal as (_ & Hl & Hts). split; [apply plot_at_Some; eauto|done]. }
  destruct (0 <? _)%Z eqn:Hrem.
  - apply Z.ltb_lt in Hrem. rewrite (timeout_delay_positive _ Hrem) in Hgoal.
    destruct Hgoal as (_ & id & Hl & Hpend & Hts). exists id.
    unfold strip in Hl; simpl in Hl. rewrite Hs in Hl.
    split; [apply plot_at_Some; eauto|]. split; [exact Hpend|].
    eapply Forall_impl; [exact Hts|]. intros t Ht Hcoords. by rewrite (Ht Hcoords).
  - destruct Hgoal as (_ & Hl & Hts). split; [apply plot_at_Some; eauto|done].
Qed.

Lemma restart_restores_board_witness :
  ∃ w' id,
    initStorageAndLoadGameState (λ _ _, 3000%Z) (boot (stored watered_farm))
      = Normal tt w' ∧
    plot_at w' 0 0 = Some (mkPlot "watered" (Some 1000%Z) (THandle id)) ∧
    pending w' id = Some (mkTimer id 3000 (ReloadGrowth 0 0)).
Proof.
  destruct (restart_restores_board (λ _ _, 3000%Z) watered_farm 0 0
              (mkPlot "watered" (Some 1000%Z) (THandle 0)))
    as (w' & Hrun & _ & id & Hat & Hpend & _).
  - split; [by_compute | vm_compute; reflexivity].
  - vm_compute. reflexivity.
  - exists w', id. split_and!; [exact Hrun | exact Hat | exact Hpend].
Defined.

(** X12: start-up on a stored document whose watered plots all carry a
    truthy lastWateredTime leaves pending timeouts and watered plots
    matched one to one, and so does every sequence of events after it;
    every plot then watered holds the handle of a pending timeout whose
    firing makes it 'ready'. *)
Theorem restart_keeps_timers_matched clock d :
  well_timed d →
  ∃ w0,
    initStorageAndLoadGameState clock (boot (Some d)) = Normal tt w0 ∧
    ∀ es,
      timers_match_plots (run es w0) ∧
      ∀ row col p,
        plot_at (run es w0) row col = Some p → state p = "watered" →
        ∃ id p',
          growthTimeout p = THandle id ∧
          is_Some (pending (run es w0) id) ∧
          plot_at (step (TimerFires id) (run es w0)) row col = Some p' ∧
          state p' = "ready" ∧ lastWateredTime p' = lastWateredTime p.
Proof.
  intros Hd. destruct (reload_reading clock d) as (w0 & Hrun & _).
  exists w0. split; [done|]. intros es.
  pose proof (run_invariant timers_consistent es w0 timers_consistent_step
                (reload_consistent clock d w0 Hd Hrun)) as Hes.
  split; [by apply consistent_match|].
  intros row col p. by apply consistent_ripens.
Qed.

Lemma restart_keeps_timers_matched_witness :
  ∃ w0,
    initStorageAndLoadGameState (λ _ _, 7000%Z)
      (boot (Some [[mkPlotJson "watered" (Some 1000%Z) false;
                    mkPlotJson "watered" (Some 4000%Z) false]]))
      = Normal tt w0 ∧
    timers_match_plots (run [PostHarvest (Some 0%Z) (Some 0%Z)] w0).
Proof.
  destruct (restart_keeps_timers_matched (λ _ _, 7000%Z)
              [[mkPlotJson "watered" (Some 1000%Z) false;
                mkPlotJson "watered" (Some 4000%Z) false]])
    as (w0 & Hrun & H).
  - by_compute.
  - exists w0. split; [exact Hrun | apply H].
Defined.

(** X13: the callback re-established at start-up leaves its fired handle
    on the plot it makes 'ready' (lines 59-65 do not reset growthTimeout),
    and the handle is harmless: after start-up on a document whose watered
    plots carry a truthy lastWateredTime and every sequence of events, a
    handle held by a plot that is not 'watered' names no pending timeout,
    so the clearTimeout of plant and harvest cancels no timer of another
    plot. *)
Theorem stale_handle_is_not_pending clock d :
  well_timed d →
  ∃ w0,
    initStorageAndLoadGameState clock (boot (Some d)) = Normal tt w0 ∧
    ∀ es row col p id,
      plot_at (run es w0) row col = Some p →
      growthTimeout p = THandle id → state p ≠ "watered" →
      pending (run es w0) id = None ∧
      cancel_ref (growthTimeout p) (timers (run es w0)) = timers (run es w0).
Proof.
  intros Hd. destruct (reload_reading clock d) as (w0 & Hrun & _).
  exists w0. split; [done|]. intros es row col p id Hat Hg Hs.
  pose proof (run_invariant timers_consistent es w0 timers_consistent_step
                (reload_consistent clock d w0 Hd Hrun))
    as (_ & _ & _ & _ & _ & Hknown & _).
  destruct (Hknown row col p id Hat Hg) as [_ Hts]. specialize (Hts Hs).
  split; [by apply pending_None|].
  rewrite Hg. simpl. by apply cancel_absent.
Qed.

Lemma stale_handle_is_not_pending_witness :
  ∃ w0,
    initStorageAndLoadGameState (λ _ _, 7000%Z)
      (boot (Some [[mkPlotJson "watered" (Some 4000%Z) false]])) = Normal tt w0 ∧
    plot_at (run [TimerFires 0] w0) 0 0 = Some (mkPlot "ready" (Some 4000%Z) (THandle 0)) ∧
    pending (run [TimerFires 0] w0) 0 = None.
Proof.
  destruct (stale_handle_is_not_pending (λ _ _, 7000%Z)
              [[mkPlotJson "watered" (Some 4000%Z) false]])
    as (w0 & Hrun & H).
  - by_compute.
  - exists w0. split; [exact Hrun|].
    assert (plot_at (run [TimerFires 0] w0) 0 0
              = Some (mkPlot "ready" (Some 4000%Z) (THandle 0))) as Hat.
    { vm_compute in Hrun. injection Hrun as <-. vm_compute. reflexivity. }
    split; [exact Hat|].
    by destruct (H [TimerFires 0] 0%Z 0%Z _ 0 Hat eq_refl).
Defined.

(** X14: when [row] and [col] are integers or absent, as the endpoints
    document their body, each of the three POST handlers answers 400 with
    success false and "Invalid plot coordinates." exactly when [row] or
    [col] is missing or outside the grid; for all other such coordinates
    the request goes on to the plot lookup and the dispatch on the state
    of the plot, and on a board of the configured size the lookup finds
    the plot. *)
Theorem invalid_coordinates_rejected a now row col w :
  (response (api a now row col w) = Some invalid_response ↔
   missing_or_outside row col) ∧
  (¬ missing_or_outside row col →
   ∃ r c, row = Some r ∧ col = Some c ∧
          api a now row col w = dispatch a now r c w ∧
          (board_sized w → board_closed w → is_Some (plot_at w r c))).
Proof.
  rewrite api_dispatch. split.
  - rewrite <- invalid_coordinates_spec.
    destruct (invalid_coordinates row col) eqn:Hv; [done|].
    split; [|done]. intros H.
    destruct (dispatch _ _ _ _ _) as [r w'|] eqn:Hd; [|done].
    apply dispatch_response in Hd. simpl in H. congruence.
  - rewrite <- invalid_coordinates_spec. intros Hv%not_true_is_false.
    rewrite Hv. pose proof Hv as (r & c & -> & -> & _)%invalid_coordinates_false.
    exists r, c. split_and!; [done..|]. intros Hsz Hc.
    destruct (sized_cell _ _ _ Hsz Hv) as [l Hcell].
    pose proof (board_all_cell _ _ _ _ _ Hc Hcell) as (p & Hl & _)%points_to_alt.
    exists p. apply plot_at_Some. eauto.
Qed.

Lemma invalid_coordinates_rejected_witness :
  response (api Plant 0 (Some 4%Z) (Some 0%Z) fresh_farm) = Some invalid_response ∧
  response (api Plant 0 None (Some 0%Z) fresh_farm) = Some invalid_response ∧
  is_Some (plot_at fresh_farm 3 4).
Proof.
  split_and!.
  - apply (invalid_coordinates_rejected Plant 0 (Some 4%Z) (Some 0%Z) fresh_farm).
    simpl. unfold ROWS. lia.
  - by apply (invalid_coordinates_rejected Plant 0 None (Some 0%Z) fresh_farm).
  - destruct (invalid_coordinates_rejected Plant 0 (Some 3%Z) (Some 4%Z) fresh_farm)
      as [_ H].
    destruct H as (r & c & [= <-] & [= <-] & _ & H).
    + simpl. unfold ROWS, COLS. intros H. apply H. lia.
    + apply H; by_compute.
Defined.

(** X15: the check and the lookup of the three POST handlers on a body
    whose fields are absent, [null], booleans or numbers.  The handler
    answers 400 "Invalid plot coordinates." exactly when a field is
    absent or its number ([null] and [false] count as 0, [true] as 1) is
    outside the grid.  Otherwise, when both fields are integers the
    handler is the dispatch on the plot at these indices, and when one is
    not (a fraction, [null], a boolean) the lookup throws a TypeError
    before anything has changed.  On integer or absent fields this is the
    handler the other theorems are about. *)
Theorem request_checked_then_looked_up a now row col w :
  (response (request a now row col w) = Some invalid_response ↔
   field_outside row col) ∧
  (¬ field_outside row col →
   match row ≫= array_index, col ≫= array_index with
   | Some r, Some c => request a now row col w = dispatch a now r c w
   | _, _ => request a now row col w = Throw TypeError w
   end) ∧
  ∀ r c, request a now (JInt <$> r) (JInt <$> c) w = api a now r c w.
Proof.
  split_and!.
  - rewrite <- invalid_fields_spec. unfold request.
    destruct (invalid_fields row col) eqn:Hv; [done|].
    split; [|done]. intros H.
    destruct (row ≫= array_index) as [r|]; [|done].
    destruct (col ≫= array_index) as [c|]; [|done].
    destruct (dispatch _ _ _ _ _) as [res w'|] eqn:Hd; [|done].
    apply dispatch_response in Hd. simpl in H. congruence.
  - rewrite <- invalid_fields_spec. intros Hv%not_true_is_false.
    unfold request. rewrite Hv.
    destruct (row ≫= array_index) as [r|]; [|done].
    by destruct (col ≫= array_index) as [c|].
  - intros r c. apply request_integer.
Qed.

Lemma request_checked_then_looked_up_witness :
  request Plant 0 (Some (JBool true)) (Some (JInt 0)) fresh_farm
    = Throw TypeError fresh_farm.
Proof.
  destruct (request_checked_then_looked_up Plant 0 (Some (JBool true)) (Some (JInt 0))
              fresh_farm) as (_ & H & _).
  apply H. intros Hout. apply Hout. vm_compute. split_and!; congruence.
Defined.
